(** * The book catalogue routes of [server/routes/books.js]

    A shallow embedding of the Express router of the bookstore API and the
    properties its specification states about it.

    The definitions come first:
    - [Latin1] and [Num]: the strings and the IEEE-754 numbers of the
      language the routes are written in, with the built-ins the handlers
      call ([toLowerCase], [includes], [parseInt], [parseFloat], the
      conversions between numbers and strings);
    - [JS]: the values a JSON body or a query string can carry, the
      coercions the operators of the handlers apply to them, and the
      completion monad for code that may throw;
    - [Heap]: arrays as objects in a store, so that the module-level array
      [books] is one location that handlers read, copy or mutate;
    - [Routes]: the seven handlers, statement by statement;
    - [Spec] and [Examples]: the predicates the specification speaks in,
      and a small collection to run the handlers on.

    The theorems follow: [Run] computes the handlers step by step,
    [Creation], [ByIdentifier], [Reading], [Metadata] and [Listing] hold
    the properties of the specification. *)

From Stdlib Require Import ZArith QArith Qround Qabs Ascii String List Bool Lia.
From Stdlib Require Floats.PrimFloat Floats.SpecFloat Floats.FloatOps Floats.FloatAxioms.
From stdpp Require Import base option gmap strings list sorting.

(* ===================================================================== *)
(** ** Strings *)
(* ===================================================================== *)

(** Strings are sequences of code units.  The model carries the code units
    U+0000 to U+00FF (one [ascii] each): this range is closed under
    [toLowerCase], and the order of code units is the order of the bytes. *)
Module Latin1.
Local Open Scope Z_scope.

Definition code (c : ascii) : Z := Z.of_N (N_of_ascii c).
Definition chr (z : Z) : ascii := ascii_of_N (Z.to_N z).

(** The capital letters: A to Z, and U+00C0 to U+00DE without the
    multiplication sign U+00D7.  Each has its small letter 32 places up. *)
Definition is_upper (c : ascii) : bool :=
  let n := code c in
  ((65 <=? n) && (n <=? 90)) ||
  ((192 <=? n) && (n <=? 222) && negb (n =? 215)).

Definition lower_char (c : ascii) : ascii :=
  if is_upper c then chr (code c + 32) else c.

(** [String.prototype.toLowerCase] *)
Fixpoint toLowerCase (s : string) : string :=
  match s with
  | EmptyString => EmptyString
  | String c r => String (lower_char c) (toLowerCase r)
  end.

(** [String.prototype.includes], with the start position left out as the
    handlers do: some suffix of [s] begins with [t]. *)
Fixpoint includes (s t : string) : bool :=
  String.prefix t s ||
  match s with
  | EmptyString => false
  | String _ r => includes r t
  end.

(** White space and line terminators (the characters [parseInt],
    [parseFloat] and the conversion of a string to a number skip). *)
Definition is_space (c : ascii) : bool :=
  let n := code c in
  ((9 <=? n) && (n <=? 13)) || (n =? 32) || (n =? 160).

Fixpoint trim_start (s : string) : string :=
  match s with
  | String c r => if is_space c then trim_start r else s
  | EmptyString => EmptyString
  end.

Fixpoint rev_append (s acc : string) : string :=
  match s with
  | EmptyString => acc
  | String c r => rev_append r (String c acc)
  end.

Definition rev (s : string) : string := rev_append s EmptyString.

Definition trim (s : string) : string := rev (trim_start (rev (trim_start s))).

(** The value of a digit in a radix up to 16, if it is one. *)
Definition digit_of (radix : Z) (c : ascii) : option Z :=
  let n := code c in
  let v := if (48 <=? n) && (n <=? 57) then n - 48
           else if (97 <=? n) && (n <=? 102) then n - 87
           else if (65 <=? n) && (n <=? 70) then n - 55
           else 16 in
  if v <? radix then Some v else None.

(** The longest run of digits at the head of a string, and the rest. *)
Fixpoint span_digits (radix : Z) (s : string) : list Z * string :=
  match s with
  | String c r =>
      match digit_of radix c with
      | Some d => let '(ds, rest) := span_digits radix r in (d :: ds, rest)
      | None => (nil, s)
      end
  | EmptyString => (nil, EmptyString)
  end.

Definition digits_value (radix : Z) (ds : list Z) : Z :=
  fold_left (fun acc d => acc * radix + d) ds 0.

(** An optional sign at the head of a string: [true] for a minus. *)
Definition strip_sign (s : string) : bool * string :=
  match s with
  | String "-"%char r => (true, r)
  | String "+"%char r => (false, r)
  | _ => (false, s)
  end.

Fixpoint drop (n : nat) (s : string) : string :=
  match n, s with
  | S k, String _ r => drop k r
  | _, _ => s
  end.

(** The order of strings: code unit by code unit, a proper prefix first. *)
Fixpoint ltb (s t : string) : bool :=
  match s, t with
  | _, EmptyString => false
  | EmptyString, String _ _ => true
  | String a r, String b u =>
      if code a <? code b then true
      else if code b <? code a then false
      else ltb r u
  end.

Definition leb (s t : string) : bool := negb (ltb t s).

(** The decimal digits of a natural number. *)
Fixpoint digits_fuel (fuel : nat) (n : Z) (acc : string) : string :=
  match fuel with
  | O => acc
  | S k =>
      let acc' := String (chr (48 + n mod 10)) acc in
      if n <? 10 then acc' else digits_fuel k (n / 10) acc'
  end.

Definition of_Z (n : Z) : string :=
  digits_fuel (S (Z.to_nat (Z.log2 n))) n EmptyString.

Fixpoint zeros (n : nat) : string :=
  match n with O => EmptyString | S k => String "0"%char (zeros k) end.

Fixpoint take (n : nat) (s : string) : string :=
  match n, s with
  | S k, String c r => String c (take k r)
  | _, _ => EmptyString
  end.
End Latin1.

(* ===================================================================== *)
(** ** Numbers *)
(* ===================================================================== *)

(** Numbers are the 64-bit binary floating-point numbers, as in the
    language.  The arithmetic of the built-ins is done on integers and
    rationals, and rounded once, to nearest with ties to even. *)
Module Num.
Import PrimFloat.
Local Open Scope Z_scope.

Definition number := float.

Definition NaN : number := nan.

Definition is_NaN (x : number) : bool := is_nan x.

(** The number nearest to the rational [p / q], for [0 <= p] and [0 < q].
    The quotient is computed with more than 64 bits, and one more bit
    below them records whether anything was left over. *)
Definition round_ratio (p q : Z) : number :=
  if p =? 0 then zero
  else
    let s := Z.max 0 (66 + Z.log2 q - Z.log2 p) in
    let m := (p * 2 ^ s) / q in
    let sticky := if (p * 2 ^ s) mod q =? 0 then 0 else 1 in
    FloatOps.SF2Prim
      (SpecFloat.binary_normalize FloatOps.prec FloatOps.emax
         (2 * m + sticky) (- s - 1) false).

(** The number nearest to a rational. *)
Definition of_Q (x : Q) : number :=
  if Qnum x <? 0 then opp (round_ratio (- Qnum x) (Zpos (Qden x)))
  else round_ratio (Qnum x) (Zpos (Qden x)).

Definition of_Z (z : Z) : number := of_Q (inject_Z z).

Definition of_nat (n : nat) : number := of_Z (Z.of_nat n).

Definition pow10 (e : Z) : Q := Qpower (inject_Z 10) e.

(** The exact value of a finite number. *)
Definition to_Q (x : number) : Q :=
  match FloatOps.Prim2SF x with
  | SpecFloat.S754_finite s m e =>
      let v := Qmult (inject_Z (Zpos m)) (Qpower (inject_Z 2) e) in
      if s then Qopp v else v
  | _ => inject_Z 0
  end.

(** Integers with the two infinities: what [ToIntegerOrInfinity] gives. *)
Inductive ext_int := NegInf | Fin (z : Z) | PosInf.

Definition to_integer_or_infinity (x : number) : ext_int :=
  match FloatOps.Prim2SF x with
  | SpecFloat.S754_nan => Fin 0
  | SpecFloat.S754_zero _ => Fin 0
  | SpecFloat.S754_infinity s => if s then NegInf else PosInf
  | SpecFloat.S754_finite s m e =>
      let a := if 0 <=? e then Zpos m * 2 ^ e else Zpos m / 2 ^ (- e) in
      Fin (if s then - a else a)
  end.

(** Truthiness of a number: every number but the zeros and NaN. *)
Definition truthy (x : number) : bool := negb (is_zero x || is_nan x).

(** *** [parseInt], with the radix left out *)
Definition parseInt (input : string) : number :=
  let '(neg, s) := Latin1.strip_sign (Latin1.trim_start input) in
  let '(radix, s) :=
    match s with
    | String "0"%char (String "x"%char r) => (16, r)
    | String "0"%char (String "X"%char r) => (16, r)
    | _ => (10, s)
    end in
  match Latin1.span_digits radix s with
  | (nil, _) => NaN
  | (ds, _) =>
      let x := of_Z (Latin1.digits_value radix ds) in
      if neg then opp x else x
  end.

(** *** Decimal literals
    [parse_decimal s] reads the longest decimal literal at the head of
    [s]: an optional sign, then [Infinity] or digits with an optional
    fraction and an optional exponent.  It gives the number and the rest
    of the string. *)
Definition parse_exponent (s : string) : Z * string :=
  match s with
  | String c r =>
      if (Latin1.code c =? 101) || (Latin1.code c =? 69) then
        let '(neg, r1) := Latin1.strip_sign r in
        match Latin1.span_digits 10 r1 with
        | (nil, _) => (0, s)
        | (ds, r2) =>
            let e := Latin1.digits_value 10 ds in
            (if neg then - e else e, r2)
        end
      else (0, s)
  | EmptyString => (0, s)
  end.

Definition parse_decimal (s : string) : option (number * string) :=
  let '(neg, s1) := Latin1.strip_sign s in
  let signed (x : number) := if neg then opp x else x in
  if String.prefix "Infinity" s1
  then Some (signed infinity, Latin1.drop 8 s1)
  else
    let '(ip, s2) := Latin1.span_digits 10 s1 in
    let '(fp, s3) :=
      match s2 with
      | String "."%char r =>
          match Latin1.span_digits 10 r, ip with
          | (nil, _), nil => (nil, s2)
          | (fp, r'), _ => (fp, r')
          end
      | _ => (nil, s2)
      end in
    match ip, fp with
    | nil, nil => None
    | _, _ =>
        let '(e, s4) := parse_exponent s3 in
        let m := Latin1.digits_value 10 (ip ++ fp) in
        let x := Qmult (inject_Z m) (pow10 (e - Z.of_nat (length fp))) in
        Some (signed (of_Q x), s4)
    end.

(** *** [parseFloat] on a string *)
Definition parseFloat (input : string) : number :=
  match parse_decimal (Latin1.trim_start input) with
  | Some (x, _) => x
  | None => NaN
  end.

(** *** The conversion of a string to a number ([StringToNumber]) *)
Definition radix_literal (radix : Z) (s : string) : number :=
  match Latin1.span_digits radix s with
  | (nil, _) => NaN
  | (ds, EmptyString) => of_Z (Latin1.digits_value radix ds)
  | (_, _) => NaN
  end.

Definition of_string (input : string) : number :=
  let s := Latin1.trim input in
  match s with
  | EmptyString => zero
  | String "0"%char (String c r) =>
      let n := Latin1.code c in
      if (n =? 120) || (n =? 88) then radix_literal 16 r
      else if (n =? 111) || (n =? 79) then radix_literal 8 r
      else if (n =? 98) || (n =? 66) then radix_literal 2 r
      else match parse_decimal s with
           | Some (x, EmptyString) => x
           | _ => NaN
           end
  | _ =>
      match parse_decimal s with
      | Some (x, EmptyString) => x
      | _ => NaN
      end
  end.

(** *** The conversion of a number to a string ([Number::toString])
    For a positive finite [x] of exact value [v], the digits are the
    integer [s] with the fewest digits [k] such that [s * 10^(n-k)]
    rounds to [x] for some [n]; among several, the one nearest to [v],
    and the even one of two equally near. *)
Definition in_decade (v : Q) (n : Z) : bool :=
  Qle_bool (pow10 (n - 1)) v && negb (Qle_bool (pow10 n) v).

(** The [n] with [10^(n-1) <= v < 10^n], found next to an estimate from
    the binary logarithm. *)
Definition decade (v : Q) : Z :=
  let a := ((Z.log2 (Qnum v) - Z.log2 (Zpos (Qden v))) * 30103) / 100000 in
  match find (in_decade v) (map (Z.add a) (-1 :: 0 :: 1 :: 2 :: 3 :: nil)) with
  | Some n => n
  | None => a
  end.

Definition scaled (k : Z) (c : Z * Z) : Q :=
  Qmult (inject_Z (fst c)) (pow10 (snd c - k)).

(** The neighbours of [v] among the numbers of [k] digits. *)
Definition candidates (v : Q) (k : Z) : list (Z * Z) :=
  flat_map
    (fun n => let f := Qfloor (Qdiv v (pow10 (n - k))) in
              (f, n) :: (f + 1, n) :: nil)
    (decade v :: decade v + 1 :: nil).

Definition round_trips (x : number) (k : Z) (c : Z * Z) : bool :=
  (10 ^ (k - 1) <=? fst c) && (fst c <? 10 ^ k) && eqb (of_Q (scaled k c)) x.

Definition nearer (v : Q) (k : Z) (c d : Z * Z) : Z * Z :=
  let ec := Qabs (Qminus (scaled k c) v) in
  let ed := Qabs (Qminus (scaled k d) v) in
  match Qcompare ec ed with
  | Lt => c
  | Gt => d
  | Eq => if Z.even (fst c) then c else d
  end.

Definition nearest (v : Q) (k : Z) (cs : list (Z * Z)) : option (Z * Z) :=
  match cs with
  | nil => None
  | c :: r => Some (fold_left (nearer v k) r c)
  end.

(** Seventeen digits always round-trip, so the search stops there. *)
Fixpoint shortest (fuel : nat) (x : number) (v : Q) (k : Z) : Z * Z :=
  let cs := candidates v k in
  match fuel with
  | O => match nearest v k cs with Some c => c | None => (0, 0) end
  | S fuel' =>
      match nearest v k (List.filter (round_trips x k) cs) with
      | Some c => c
      | None => shortest fuel' x v (k + 1)
      end
  end.

Definition format_positive (x : number) : string :=
  let '(s, n) := shortest 16 x (to_Q x) 1 in
  let digits := Latin1.of_Z s in
  let k := Z.of_nat (String.length digits) in
  if (k <=? n) && (n <=? 21) then
    digits +:+ Latin1.zeros (Z.to_nat (n - k))
  else if (0 <? n) && (n <=? 21) then
    Latin1.take (Z.to_nat n) digits +:+ "." +:+ Latin1.drop (Z.to_nat n) digits
  else if (-6 <? n) && (n <=? 0) then
    "0." +:+ Latin1.zeros (Z.to_nat (- n)) +:+ digits
  else
    let e := n - 1 in
    let exponent := (if e <? 0 then "-" else "+") +:+ Latin1.of_Z (Z.abs e) in
    if k =? 1 then digits +:+ "e" +:+ exponent
    else Latin1.take 1 digits +:+ "." +:+ Latin1.drop 1 digits +:+ "e" +:+ exponent.

Definition to_string (x : number) : string :=
  if is_nan x then "NaN"
  else if is_zero x then "0"
  else if is_infinity x then (if get_sign x then "-Infinity" else "Infinity")
  else if get_sign x then "-" +:+ format_positive (abs x)
  else format_positive x.
End Num.

(* ===================================================================== *)
(** ** Values, coercions and completions *)
(* ===================================================================== *)

Module JS.
Import PrimFloat.

(** The values a JSON document or a parsed query string is made of,
    and [undefined].  An object is a finite map from property names to
    values; arrays and objects that sit inside a value are never mutated
    by the handlers, so they are carried by value. *)
Inductive value :=
| VUndefined
| VNull
| VBool (b : bool)
| VNum (x : Num.number)
| VStr (s : string)
| VArr (elems : list value)
| VObj (props : gmap string value).

Inductive error := TypeError.

(** The outcome of evaluating code that may throw. *)
Inductive completion (A : Type) :=
| Normal (a : A)
| Throw (e : error).
Arguments Normal {A} a.
Arguments Throw {A} e.

Definition bind {A B} (k : A → completion B) (c : completion A) : completion B :=
  match c with
  | Normal a => k a
  | Throw e => Throw e
  end.

#[export] Instance completion_ret : MRet completion := @Normal.
#[export] Instance completion_bind : MBind completion := @bind.

(** Every callback in turn, up to the first that throws. *)
Fixpoint mapM {A B} (f : A → completion B) (l : list A) : completion (list B) :=
  match l with
  | [] => Normal []
  | x :: r => y ← f x; ys ← mapM f r; Normal (y :: ys)
  end.

Fixpoint filterM {A} (f : A → completion bool) (l : list A) : completion (list A) :=
  match l with
  | [] => Normal []
  | x :: r =>
      keep ← f x; ys ← filterM f r;
      Normal (if (keep : bool) then x :: ys else ys)
  end.

(** The first element the callback accepts, with its index. *)
Fixpoint findM {A} (f : A → completion bool) (i : nat) (l : list A)
  : completion (option (nat * A)) :=
  match l with
  | [] => Normal None
  | x :: r =>
      found ← f x;
      if (found : bool) then Normal (Some (i, x)) else findM f (S i) r
  end.

(** *** Coercions *)

(** [ToBoolean] *)
Definition truthy (v : value) : bool :=
  match v with
  | VUndefined | VNull => false
  | VBool b => b
  | VNum x => Num.truthy x
  | VStr s => negb (String.eqb s "")
  | VArr _ | VObj _ => true
  end.

(** [a || b] *)
Definition or_else (a b : value) : value := if truthy a then a else b.

(** [ToString].  An array is joined with commas, [undefined] and [null]
    elements giving nothing.  A plain object converts through the
    [toString] it inherits; when it has a property of that name of its
    own (from JSON, so never a function) no conversion is left and the
    coercion throws. *)
Fixpoint to_string (v : value) : completion string :=
  match v with
  | VUndefined => Normal "undefined"
  | VNull => Normal "null"
  | VBool b => Normal (if b then "true" else "false")
  | VNum x => Normal (Num.to_string x)
  | VStr s => Normal s
  | VArr elems =>
      (fix join (l : list value) : completion string :=
         match l with
         | [] => Normal ""
         | e :: r =>
             s ← match e with
                  | VUndefined | VNull => Normal ""
                  | _ => to_string e
                  end;
             match r with
             | [] => Normal s
             | _ => t ← join r; Normal (s +:+ "," +:+ t)
             end
         end) elems
  | VObj props =>
      match props !! "toString" with
      | Some _ => Throw TypeError
      | None => Normal "[object Object]"
      end
  end.

(** [ToNumber] *)
Definition to_number (v : value) : completion Num.number :=
  match v with
  | VUndefined => Normal Num.NaN
  | VNull => Normal zero
  | VBool b => Normal (if b then one else zero)
  | VNum x => Normal x
  | VStr s => Normal (Num.of_string s)
  | VArr _ | VObj _ => s ← to_string v; Normal (Num.of_string s)
  end.

(** The global functions [parseInt] and [parseFloat]: the argument is
    converted to a string first. *)
Definition parseInt (v : value) : completion Num.number :=
  s ← to_string v; Normal (Num.parseInt s).

Definition parseFloat (v : value) : completion Num.number :=
  s ← to_string v; Normal (Num.parseFloat s).

(** [a >= b] and [a <= b] where one side is a number: the other side is
    converted to a number, and a NaN on either side gives [false]. *)
Definition ge_number (a : value) (b : Num.number) : completion bool :=
  x ← to_number a; Normal (leb b x).

Definition le_number (a : value) (b : Num.number) : completion bool :=
  x ← to_number a; Normal (leb x b).

(** [a === b] where [b] is a number. *)
Definition strict_equals_number (a : value) (b : Num.number) : bool :=
  match a with
  | VNum x => eqb x b
  | _ => false
  end.

(** The comparison a [Set] makes ([SameValueZero]).  An array or an
    object is the same value only as itself; the values compared here are
    fields of different books, which JSON parsing made different
    objects. *)
Definition same_value_zero (a b : value) : bool :=
  match a, b with
  | VUndefined, VUndefined => true
  | VNull, VNull => true
  | VBool x, VBool y => Bool.eqb x y
  | VNum x, VNum y => eqb x y || (is_nan x && is_nan y)
  | VStr s, VStr t => String.eqb s t
  | _, _ => false
  end.

(** *** Property access *)

(** [v.k] for the property names the handlers read ([id], [title],
    [genre] and the like: none of them is a property of a prototype).
    Reading a property of [undefined] or [null] throws; a value that is
    not an object has none of these properties. *)
Definition get (v : value) (k : string) : completion value :=
  match v with
  | VUndefined | VNull => Throw TypeError
  | VObj props => Normal (default VUndefined (props !! k))
  | _ => Normal VUndefined
  end.

(** [v.toLowerCase()]: the method exists on strings alone. *)
Definition call_toLowerCase (v : value) : completion string :=
  match v with
  | VStr s => Normal (Latin1.toLowerCase s)
  | _ => Throw TypeError
  end.

(** The own enumerable properties of a value, as the spread [{...v}]
    copies them: the properties of an object, the elements of an array
    and the characters of a string under their indices, nothing for the
    other values. *)
Definition indexed (l : list value) : gmap string value :=
  list_to_map (imap (fun i x => (Latin1.of_Z (Z.of_nat i), x)) l).

Fixpoint characters (s : string) : list value :=
  match s with
  | EmptyString => []
  | String c r => VStr (String c EmptyString) :: characters r
  end.

Definition own_properties (v : value) : gmap string value :=
  match v with
  | VObj props => props
  | VArr elems => indexed elems
  | VStr s => indexed (characters s)
  | _ => ∅
  end.

(** *** [new Set(iterable)] and [Array.prototype.sort] *)

(** The elements of a set made from a list, in the order a spread gives
    them back: first occurrences, a negative zero stored as zero. *)
Definition normalize_zero (v : value) : value :=
  match v with
  | VNum x => if is_zero x then VNum zero else v
  | _ => v
  end.

Fixpoint set_add (v : value) (s : list value) : list value :=
  match s with
  | [] => [v]
  | w :: r => if same_value_zero w v then s else w :: set_add v r
  end.

Definition set_of (l : list value) : list value :=
  fold_left (fun s v => set_add (normalize_zero v) s) l [].

(** The sort without a comparison function: [undefined] goes last, the
    other elements are ordered by their conversions to strings, equal
    ones staying in their order.  An array with at most one element that
    is not [undefined] needs no comparison of strings, hence no
    conversion. *)
Definition is_undefined (v : value) : bool :=
  match v with VUndefined => true | _ => false end.

Fixpoint insert_by_key (x : string * value) (l : list (string * value))
  : list (string * value) :=
  match l with
  | [] => [x]
  | y :: r =>
      if Latin1.ltb (fst y) (fst x) then y :: insert_by_key x r
      else x :: l
  end.

Definition sort_by_key (l : list (string * value)) : list (string * value) :=
  foldr insert_by_key [] l.

Definition sort (l : list value) : completion (list value) :=
  let defined := List.filter (fun v => negb (is_undefined v)) l in
  let undefineds := List.filter is_undefined l in
  match defined with
  | [] | [_] => Normal (defined ++ undefineds)
  | _ =>
      keys ← mapM to_string defined;
      Normal (map snd (sort_by_key (combine keys defined)) ++ undefineds)
  end.
End JS.

(* ===================================================================== *)
(** ** Arrays in the store *)
(* ===================================================================== *)

(** An array that code can hold a reference to is an object in a store: a
    handler that calls a mutating method changes the array at that
    reference, for every holder of it.  A computation takes the store and
    gives a completion together with the store it leaves; what was written
    before a throw stays written. *)
Module Heap.
Import JS.

Abbreviation ref := positive.
Abbreviation heap := (gmap positive (list value)).

Definition M (A : Type) : Type := heap → completion A * heap.

Definition ret {A} (a : A) : M A := λ h, (Normal a, h).

Definition bind {A B} (k : A → M B) (m : M A) : M B :=
  λ h, match m h with
       | (Normal a, h') => k a h'
       | (Throw e, h') => (Throw e, h')
       end.

#[export] Instance M_ret : MRet M := @ret.
#[export] Instance M_bind : MBind M := @bind.

(** Code that does not touch the store. *)
Definition lift {A} (c : completion A) : M A := λ h, (c, h).

Definition contents (h : heap) (r : ref) : list value := default [] (h !! r).

Definition alloc (xs : list value) : M ref :=
  λ h, let r := fresh (dom h) in (Normal r, <[r := xs]> h).

Definition read (r : ref) : M (list value) := λ h, (Normal (contents h r), h).

Definition write (r : ref) (xs : list value) : M unit :=
  λ h, (Normal tt, <[r := xs]> h).

(** *** The array methods the handlers call *)

(** [[...a]] *)
Definition spread (a : ref) : M ref := xs ← read a; alloc xs.

(** [a.length] *)
Definition length (a : ref) : M nat := xs ← read a; mret (List.length xs).

(** [a[i]] *)
Definition index (a : ref) (i : nat) : M value :=
  xs ← read a; mret (default VUndefined (xs !! i)).

(** [a[i] = v]; past the end the array grows, the gap reading as
    [undefined]. *)
Definition store_at (i : nat) (v : value) (xs : list value) : list value :=
  if decide (i < List.length xs) then <[i := v]> xs
  else xs ++ replicate (i - List.length xs) VUndefined ++ [v].

Definition assign (a : ref) (i : nat) (v : value) : M unit :=
  xs ← read a; write a (store_at i v xs).

(** [a.filter(cb)] *)
Definition filter (a : ref) (cb : value → completion bool) : M ref :=
  xs ← read a; ys ← lift (filterM cb xs); alloc ys.

(** [a.map(cb)] *)
Definition map (a : ref) (cb : value → completion value) : M ref :=
  xs ← read a; ys ← lift (mapM cb xs); alloc ys.

(** [a.find(cb)] *)
Definition find (a : ref) (cb : value → completion bool) : M value :=
  xs ← read a; found ← lift (findM cb 0 xs);
  mret (match found with Some (_, x) => x | None => VUndefined end).

(** [a.findIndex(cb)]; [None] stands for the index -1. *)
Definition findIndex (a : ref) (cb : value → completion bool) : M (option nat) :=
  xs ← read a; found ← lift (findM cb 0 xs);
  mret (match found with Some (i, _) => Some i | None => None end).

(** [a.slice(0, e)]: the end counts from the back when negative, and is
    clamped to the array. *)
Definition slice_end (len : nat) (e : Num.number) : nat :=
  match Num.to_integer_or_infinity e with
  | Num.NegInf => 0
  | Num.Fin z =>
      if (z <? 0)%Z then Z.to_nat (Z.max (Z.of_nat len + z) 0)
      else Z.to_nat (Z.min z (Z.of_nat len))
  | Num.PosInf => len
  end.

Definition slice (a : ref) (e : Num.number) : M ref :=
  xs ← read a; alloc (take (slice_end (List.length xs) e) xs).

(** [a.push(v)] *)
Definition push (a : ref) (v : value) : M nat :=
  xs ← read a; _ ← write a (xs ++ [v]); mret (S (List.length xs)).

(** [a.splice(i, 1)]: the element at [i] leaves [a]; the result is a new
    array of what was removed. *)
Definition splice (a : ref) (i : nat) : M ref :=
  xs ← read a;
  _ ← write a (take i xs ++ drop (S i) xs);
  alloc (take 1 (drop i xs)).

(** [new Set(a)], and [[...set]] *)
Definition new_Set (a : ref) : M (list value) := xs ← read a; mret (set_of xs).

Definition spread_Set (s : list value) : M ref := alloc s.

(** [a.sort()]: sorts [a] itself and gives [a] back. *)
Definition sort (a : ref) : M ref :=
  xs ← read a; ys ← lift (JS.sort xs); _ ← write a ys; mret a.
End Heap.

(* ===================================================================== *)
(** ** The routes *)
(* ===================================================================== *)

Module Routes.
Import JS Heap.
Import PrimFloat.

(** [import { books } from '../data/books.js']: the module-level array,
    one reference for the life of the process. *)
Definition books : ref := 1%positive.

(** What a handler sends: a status and the value given to [res.json].
    The body of a 500 carries the handler's message and the error that
    was caught. *)
Inductive payload :=
| Json (v : value)
| Fault (message : string) (e : error).

Record response := { status : Z; body : payload }.

Definition object (fields : list (string * value)) : value :=
  VObj (list_to_map fields).

(** [res.status(code).json(v)], and [res.json(v)] for [code] 200. *)
Definition json (code : Z) (v : value) : response :=
  {| status := code; body := Json v |}.

Definition message (code : Z) (text : string) : response :=
  json code (object [("message", VStr text)]).

(** [try { ... } catch (error) { res.status(500).json({ message, error:
    error.message }) }] *)
Definition try_catch (text : string) (m : M response) : heap → response * heap :=
  λ h, match m h with
       | (Normal r, h') => (r, h')
       | (Throw e, h') => ({| status := 500; body := Fault text e |}, h')
       end.

(** [a || b] on conditions, the right side evaluated only when needed. *)
Definition or_lazy (a b : completion bool) : completion bool :=
  x ← a; if (x : bool) then Normal true else b.

(** [book.k.toLowerCase()] *)
Definition lowered (book : value) (k : string) : completion string :=
  v ← get book k; call_toLowerCase v.

(** *** [router.get('/')] *)
Definition get_books (query : value) : heap → response * heap :=
  try_catch "Failed to fetch books" (
    search ← lift (get query "search");
    author ← lift (get query "author");
    genre ← lift (get query "genre");
    minPrice ← lift (get query "minPrice");
    maxPrice ← lift (get query "maxPrice");
    year ← lift (get query "year");
    limit ← lift (get query "limit");
    let limit := match limit with VUndefined => VNum 22%float | _ => limit end in
    filteredBooks ← spread books;
    filteredBooks ←
      (if truthy search then
         searchTerm ← lift (call_toLowerCase search);
         filter filteredBooks (λ book,
           or_lazy (s ← lowered book "title"; Normal (Latin1.includes s searchTerm))
          (or_lazy (s ← lowered book "author"; Normal (Latin1.includes s searchTerm))
          (or_lazy (s ← lowered book "description"; Normal (Latin1.includes s searchTerm))
                   (s ← lowered book "genre"; Normal (Latin1.includes s searchTerm)))))
       else mret filteredBooks);
    filteredBooks ←
      (if truthy author then
         filter filteredBooks (λ book,
           s ← lowered book "author";
           t ← call_toLowerCase author;
           Normal (Latin1.includes s t))
       else mret filteredBooks);
    filteredBooks ←
      (if truthy genre then
         filter filteredBooks (λ book,
           s ← lowered book "genre";
           t ← call_toLowerCase genre;
           Normal (String.eqb s t))
       else mret filteredBooks);
    filteredBooks ←
      (if truthy minPrice then
         filter filteredBooks (λ book,
           p ← get book "price";
           m ← parseFloat minPrice;
           ge_number p m)
       else mret filteredBooks);
    filteredBooks ←
      (if truthy maxPrice then
         filter filteredBooks (λ book,
           p ← get book "price";
           m ← parseFloat maxPrice;
           le_number p m)
       else mret filteredBooks);
    filteredBooks ←
      (if truthy year then
         filter filteredBooks (λ book,
           y ← get book "publishedYear";
           n ← parseInt year;
           Normal (strict_equals_number y n))
       else mret filteredBooks);
    n ← lift (parseInt limit);
    limitedBooks ← slice filteredBooks n;
    shown ← read limitedBooks;
    total ← length filteredBooks;
    showing ← length limitedBooks;
    mret (json 200 (object [("books", VArr shown);
                            ("total", VNum (Num.of_nat total));
                            ("showing", VNum (Num.of_nat showing))]))).

(** The callback of [find] and [findIndex]:
    [b => b.id === parseInt(req.params.id)] *)
Definition has_id (id : string) (b : value) : completion bool :=
  v ← get b "id"; Normal (strict_equals_number v (Num.parseInt id)).

(** *** [router.get('/:id')] *)
Definition get_book (id : string) : heap → response * heap :=
  try_catch "Failed to fetch book" (
    book ← find books (has_id id);
    if negb (truthy book) then mret (message 404 "Book not found")
    else mret (json 200 book)).

(** *** [router.get('/meta/genres')] and [router.get('/meta/authors')]
    The two handlers are the same code for two properties. *)
Definition get_meta (property text : string) : heap → response * heap :=
  try_catch text (
    mapped ← map books (λ book, get book property);
    set ← new_Set mapped;
    genres ← spread_Set set;
    genres ← sort genres;
    out ← read genres;
    mret (json 200 (VArr out))).

Definition get_meta_genres := get_meta "genre" "Failed to fetch genres".
Definition get_meta_authors := get_meta "author" "Failed to fetch authors".

(** The two readings of the clock a creation makes:
    [new Date().getFullYear()] and [new Date().toISOString()]. *)
Record clock := { getFullYear : Num.number; toISOString : string }.

Definition placeholder_image : string :=
  "https://images.pexels.com/photos/159711/books-bookstore-book-reading-159711.jpeg".

(** *** [router.post('/')]
    The handler proper, which runs once [authMiddleware] and
    [adminMiddleware] have let the request through. *)
Definition post_book (now : clock) (req_body : value) : heap → response * heap :=
  try_catch "Failed to create book" (
    title ← lift (get req_body "title");
    author ← lift (get req_body "author");
    isbn ← lift (get req_body "isbn");
    publishedYear ← lift (get req_body "publishedYear");
    genre ← lift (get req_body "genre");
    price ← lift (get req_body "price");
    description ← lift (get req_body "description");
    pages ← lift (get req_body "pages");
    publisher ← lift (get req_body "publisher");
    language ← lift (get req_body "language");
    image ← lift (get req_body "image");
    if negb (truthy title) || negb (truthy author)
       || negb (truthy genre) || negb (truthy price)
    then mret (message 400 "Title, author, genre, and price are required")
    else
      size ← length books;
      year ← lift (parseInt publishedYear);
      amount ← lift (parseFloat price);
      count ← lift (parseInt pages);
      let newBook := object [
        ("id", VNum (Num.of_nat size + 1)%float);
        ("title", title);
        ("author", author);
        ("isbn", or_else isbn (VStr ""));
        ("publishedYear", or_else (VNum year) (VNum (getFullYear now)));
        ("genre", genre);
        ("price", VNum amount);
        ("description", or_else description (VStr ""));
        ("pages", or_else (VNum count) (VNum 0%float));
        ("publisher", or_else publisher (VStr ""));
        ("language", or_else language (VStr "English"));
        ("rating", VNum 0%float);
        ("stock", VNum 0%float);
        ("image", or_else image (VStr placeholder_image));
        ("createdAt", VStr (toISOString now))] in
      _ ← push books newBook;
      mret (json 201 (object [("message", VStr "Book created successfully");
                              ("book", newBook)]))).

(** [{ ...old, ...req.body, id: id }] *)
Definition merged (old req_body id : value) : value :=
  VObj (<["id" := id]> (own_properties req_body ∪ own_properties old)).

(** *** [router.put('/:id')] *)
Definition put_book (id : string) (req_body : value) : heap → response * heap :=
  try_catch "Failed to update book" (
    bookIndex ← findIndex books (has_id id);
    match bookIndex with
    | None => mret (message 404 "Book not found")
    | Some bookIndex =>
        old ← index books bookIndex;
        again ← index books bookIndex;
        oldId ← lift (get again "id");
        let updatedBook := merged old req_body oldId in
        _ ← assign books bookIndex updatedBook;
        mret (json 200 (object [("message", VStr "Book updated successfully");
                                ("book", updatedBook)]))
    end).

(** *** [router.delete('/:id')] *)
Definition delete_book (id : string) : heap → response * heap :=
  try_catch "Failed to delete book" (
    bookIndex ← findIndex books (has_id id);
    match bookIndex with
    | None => mret (message 404 "Book not found")
    | Some bookIndex =>
        removed ← splice books bookIndex;
        deletedBook ← index removed 0;
        mret (json 200 (object [("message", VStr "Book deleted successfully");
                                ("book", deletedBook)]))
    end).
End Routes.

(* ===================================================================== *)
(** ** The vocabulary of the specification *)
(* ===================================================================== *)

Module Spec.
Import JS Heap Routes.
Import PrimFloat.

Definition nullish (v : value) : bool :=
  match v with VUndefined | VNull => true | _ => false end.

(** The property [k] of a value, [undefined] when it has none. *)
Definition field (v : value) (k : string) : value :=
  match v with
  | VObj props => default VUndefined (props !! k)
  | _ => VUndefined
  end.

Definition is_object (v : value) : Prop := ∃ props, v = VObj props.

(** A coercion that does not throw. *)
Definition converts (v : value) : Prop := ∃ s, to_string v = Normal s.

(** The collection a store holds. *)
Definition collection (h : heap) (bs : list value) : Prop := h !! books = Some bs.

(** A store whose collection is made of objects. *)
Definition objects (h : heap) : Prop :=
  ∃ bs, collection h bs ∧ Forall is_object bs.

(** *** Creation *)

Definition required : list string := ["title"; "author"; "genre"; "price"].

(** The validation response, the store left as it was. *)
Definition rejected (now : clock) (req_body : value) (h : heap) : Prop :=
  post_book now req_body h =
    (message 400 "Title, author, genre, and price are required", h).





(** *** Lookup by identifier *)

(** The book carries the identifier the route parameter names. *)
Definition identifies (id : string) (b : value) : bool :=
  strict_equals_number (field b "id") (Num.parseInt id).

(** No book of the collection carries the identifier. *)
Definition absent (id : string) (bs : list value) : Prop :=
  Forall (λ b, identifies id b = false) bs.

(** [old], at index [i], is the first book that carries the identifier. *)
Definition located (id : string) (bs : list value) (i : nat) (old : value) : Prop :=
  bs !! i = Some old ∧ identifies id old = true ∧
  ∀ j b, j < i → bs !! j = Some b → identifies id b = false.

(** The not-found response, the store left as it was. *)
Definition not_found (outcome : response * heap) (h : heap) : Prop :=
  outcome = (message 404 "Book not found", h).

(** *** Update *)

(** The update response: status 200 with the record [upd], which takes the
    place of the book at index [i]. *)
Definition updated (id : string) (req_body : value) (h : heap)
    (bs : list value) (i : nat) (upd : value) : Prop :=
  put_book id req_body h =
    (json 200 (object [("message", VStr "Book updated successfully");
                       ("book", upd)]),
     <[books := <[i := upd]> bs]> h).

(** [upd] is [old] with the fields of the request body laid over it, the
    fields in [kept] apart. *)
Definition merges (kept : string → Prop) (old req_body upd : value) : Prop :=
  is_object upd ∧
  (∀ k v, ¬ kept k → own_properties req_body !! k = Some v → field upd k = v) ∧
  (∀ k, own_properties req_body !! k = None → field upd k = field old k).


(** *** Responses *)


(** *** Reading *)

(** A computation that leaves the collection as it finds it, whether it
    returns or throws, and whose result satisfies [ok] when it returns. *)
Definition keeps {A} (ok : A → Prop) (m : M A) : Prop :=
  ∀ h bs, collection h bs →
    collection (m h).2 bs ∧ ∀ a, (m h).1 = Normal a → ok a.

(** A reference to an array other than the collection. *)
Definition temporary (r : ref) : Prop := r ≠ books.

(** *** Metadata *)

(** Not above, in the order of code units. *)
Definition le (s t : string) : Prop := Latin1.ltb t s = false.

(** A string as the sort sees it: with its conversion to a string. *)
Definition keyed (s : string) : string * value := (s, VStr s).

(** Strictly ascending in the order of code units. *)
Definition ascending (names : list string) : Prop :=
  StronglySorted (λ s t, Latin1.ltb s t = true) names.

(** The books have the strings [names], in order, as their [property]. *)
Definition texts (property : string) (bs : list value) (names : list string) : Prop :=
  (λ b, field b property) <$> bs = VStr <$> names.

(** A response that lists the distinct strings among [names], without
    duplicates and in ascending order. *)
Definition lists_distinct_sorted (names : list string) (r : response) : Prop :=
  ∃ out, r = json 200 (VArr (VStr <$> out)) ∧
         ascending out ∧ NoDup out ∧ ∀ s, s ∈ out ↔ s ∈ names.

(** *** Listing *)

(** A book the filters can read: an object whose title, author,
    description and genre are strings and whose price is a number. *)
Definition well_formed (b : value) : Prop :=
  is_object b ∧
  Forall (λ k, ∃ s, field b k = VStr s) ["title"; "author"; "description"; "genre"] ∧
  ∃ x, field b "price" = VNum x.

Definition text_of (b : value) (k : string) : string :=
  match field b k with VStr s => s | _ => EmptyString end.

Definition number_of (b : value) (k : string) : Num.number :=
  match field b k with VNum x => x | _ => Num.NaN end.

(** The filter predicates, in the words of the specification. *)

(** Free-text search: the term occurs, letter case apart, in the title,
    the author, the description or the genre. *)
Definition search_matches (term : string) (b : value) : bool :=
  let t := Latin1.toLowerCase term in
  Latin1.includes (Latin1.toLowerCase (text_of b "title")) t ||
  Latin1.includes (Latin1.toLowerCase (text_of b "author")) t ||
  Latin1.includes (Latin1.toLowerCase (text_of b "description")) t ||
  Latin1.includes (Latin1.toLowerCase (text_of b "genre")) t.

(** Author: the parameter occurs in the author, letter case apart. *)
Definition author_matches (a : string) (b : value) : bool :=
  Latin1.includes (Latin1.toLowerCase (text_of b "author")) (Latin1.toLowerCase a).

(** Genre: the same string, letter case apart. *)
Definition genre_matches (g : string) (b : value) : bool :=
  String.eqb (Latin1.toLowerCase (text_of b "genre")) (Latin1.toLowerCase g).

(** Price bounds, both inclusive. *)
Definition min_price_matches (bound : string) (b : value) : bool :=
  (Num.parseFloat bound <=? number_of b "price")%float.

Definition max_price_matches (bound : string) (b : value) : bool :=
  (number_of b "price" <=? Num.parseFloat bound)%float.

(** Year: the published year is the number the parameter parses to. *)
Definition year_matches (y : string) (b : value) : bool :=
  strict_equals_number (field b "publishedYear") (Num.parseInt y).

(** The parameters of a query string, each absent or a string. *)
Record filters := {
  by_search : option string;
  by_author : option string;
  by_genre : option string;
  by_minPrice : option string;
  by_maxPrice : option string;
  by_year : option string;
  by_limit : option string
}.

Definition param (o : option string) : value :=
  match o with Some s => VStr s | None => VUndefined end.

(** [query] is a parsed query string with the parameters [f]. *)
Definition carries (query : value) (f : filters) : Prop :=
  get query "search" = Normal (param (by_search f)) ∧
  get query "author" = Normal (param (by_author f)) ∧
  get query "genre" = Normal (param (by_genre f)) ∧
  get query "minPrice" = Normal (param (by_minPrice f)) ∧
  get query "maxPrice" = Normal (param (by_maxPrice f)) ∧
  get query "year" = Normal (param (by_year f)) ∧
  get query "limit" = Normal (param (by_limit f)).

(** A parameter is supplied when it is there and not the empty string. *)
Definition supplied (o : option string) : option string :=
  match o with
  | Some EmptyString => None
  | _ => o
  end.

Definition passes (o : option string) (p : string → value → bool) (b : value) : bool :=
  match supplied o with
  | Some s => p s b
  | None => true
  end.

(** The conjunction of the supplied predicates. *)
Definition satisfies (f : filters) (b : value) : bool :=
  passes (by_search f) search_matches b &&
  passes (by_author f) author_matches b &&
  passes (by_genre f) genre_matches b &&
  passes (by_minPrice f) min_price_matches b &&
  passes (by_maxPrice f) max_price_matches b &&
  passes (by_year f) year_matches b.

(** The limit as a number: what the parameter parses to, 22 without one. *)
Definition limit_number (f : filters) : Num.number :=
  match by_limit f with
  | Some s => Num.parseInt s
  | None => 22%float
  end.


(** The list response. *)
Definition listing (shown : list value) (total : nat) : response :=
  json 200 (object [("books", VArr shown);
                    ("total", VNum (Num.of_nat total));
                    ("showing", VNum (Num.of_nat (List.length shown)))]).


End Spec.

(* ===================================================================== *)
(** ** Sample data *)
(* ===================================================================== *)

Module Examples.
Import JS Heap Routes Spec.
Import PrimFloat.

Definition sample (id : Z) (title author genre description : string)
    (price year : Z) : value :=
  object [("id", VNum (Num.of_Z id));
          ("title", VStr title);
          ("author", VStr author);
          ("genre", VStr genre);
          ("description", VStr description);
          ("price", VNum (Num.of_Z price));
          ("publishedYear", VNum (Num.of_Z year))].

(** A seed of three books whose genres are Fiction, Sci-Fi, Fiction. *)
Definition seed : list value :=
  [sample 1 "Emma" "Jane Austen" "Fiction" "A match-maker in Highbury" 6 1815;
   sample 2 "Dune" "Frank Herbert" "Sci-Fi" "The spice of Arrakis" 10 1965;
   sample 3 "Ulysses" "James Joyce" "Fiction" "One day in Dublin" 12 1922].

Definition store : heap := {[ books := seed ]}.

Definition now : clock :=
  {| getFullYear := Num.of_Z 2024; toISOString := "2024-05-01T12:00:00.000Z" |}.

(** [{title: "X"}] *)
Definition title_only : value := object [("title", VStr "X")].

(** A request with the four required fields, the price as given. *)
Definition priced (price : value) : value :=
  object [("title", VStr "X"); ("author", VStr "Y"); ("genre", VStr "Z");
          ("price", price)].

(** [{id: 99, title: "Persuasion"}] *)
Definition renumbering : value :=
  object [("id", VNum (Num.of_Z 99)); ("title", VStr "Persuasion")].

(** A query string without parameters, and its parsed form [{}]. *)
Definition unfiltered : filters :=
  {| by_search := None; by_author := None; by_genre := None;
     by_minPrice := None; by_maxPrice := None; by_year := None;
     by_limit := None |}.

Definition empty_query : value := object [].

Definition limited (limit : string) : filters :=
  {| by_search := None; by_author := None; by_genre := None;
     by_minPrice := None; by_maxPrice := None; by_year := None;
     by_limit := Some limit |}.

(** A book without a description, alone in a store. *)
Definition undescribed : value :=
  object [("id", VNum (Num.of_Z 1)); ("title", VStr "Notes");
          ("author", VStr "Anon"); ("genre", VStr "Essay");
          ("price", VNum (Num.of_Z 3))].

Definition bare_store : heap := {[ books := [undescribed] ]}.


(** [?limit=...] *)
Definition limit_query (limit : string) : value := object [("limit", VStr limit)].


End Examples.

(* ===================================================================== *)
(** ** More vocabulary: outcomes and sequences of requests *)
(* ===================================================================== *)

Module Behaviour.
Import JS Heap Routes Spec Examples.
Import PrimFloat.

(** The collection without the book at index [i], the others in order. *)
Definition without (i : nat) (bs : list value) : list value :=
  take i bs ++ drop (S i) bs.

(** [old], at index [i], is the only book that carries the identifier. *)
Definition only (id : string) (bs : list value) (i : nat) (old : value) : Prop :=
  located id bs i old ∧
  ∀ j b, i < j → bs !! j = Some b → identifies id b = false.

(** The response of a catch block. *)
Definition fault (text : string) : response :=
  {| status := 500; body := Fault text TypeError |}.

(** A request that passes the presence check and whose numeric fields
    convert. *)
Definition acceptable (req_body : value) : Prop :=
  Forall (λ k, truthy (field req_body k) = true) required ∧
  converts (field req_body "publishedYear") ∧
  converts (field req_body "price") ∧
  converts (field req_body "pages").

(** The fields a creation reads besides the required ones. *)
Definition optional : list string :=
  ["isbn"; "publishedYear"; "description"; "pages"; "publisher";
   "language"; "image"].

(** The creation response for the record [newBook]. *)
Definition creation (newBook : value) : response :=
  json 201 (object [("message", VStr "Book created successfully");
                    ("book", newBook)]).

(** The deletion response for the record [deletedBook]. *)
Definition deletion (deletedBook : value) : response :=
  json 200 (object [("message", VStr "Book deleted successfully");
                    ("book", deletedBook)]).

(** Two sets of parameters that supply the same filters and limit. *)
Definition same_supplied (f g : filters) : Prop :=
  supplied (by_search f) = supplied (by_search g) ∧
  supplied (by_author f) = supplied (by_author g) ∧
  supplied (by_genre f) = supplied (by_genre g) ∧
  supplied (by_minPrice f) = supplied (by_minPrice g) ∧
  supplied (by_maxPrice f) = supplied (by_maxPrice g) ∧
  supplied (by_year f) = supplied (by_year g) ∧
  limit_number f = limit_number g.


(** *** More sample data *)

(** [?genre=&author=] *)
Definition blank : filters :=
  {| by_search := None; by_author := Some ""; by_genre := Some "";
     by_minPrice := None; by_maxPrice := None; by_year := None;
     by_limit := None |}.

Definition blank_query : value :=
  object [("genre", VStr ""); ("author", VStr "")].

(** [?search=a&search=b], which the query parser makes an array. *)
Definition two_terms : value :=
  object [("search", VArr [VStr "a"; VStr "b"])].



(** A request with the required fields and a genre of its own, which
    also tries to set [id], [rating], [stock] and [createdAt]. *)
Definition western : value :=
  object [("title", VStr "Lonesome Dove"); ("author", VStr "Larry McMurtry");
          ("genre", VStr "Western"); ("price", VStr "9.50 USD");
          ("id", VNum (Num.of_Z 77)); ("rating", VNum (Num.of_Z 5));
          ("stock", VNum (Num.of_Z 40)); ("createdAt", VStr "yesterday")].

End Behaviour.

(* ===================================================================== *)
(** ** Running computations *)
(* ===================================================================== *)

Module Run.
Import JS Heap Routes Spec.
Import PrimFloat.

Lemma bind_normal {A B} (m : M A) (k : A → M B) h a h' :
  m h = (Normal a, h') → (m ≫= k) h = k a h'.
Proof. intros E. unfold mbind, M_bind, bind. now rewrite E. Qed.

Lemma bind_throw {A B} (m : M A) (k : A → M B) h e h' :
  m h = (Throw e, h') → (m ≫= k) h = (Throw e, h').
Proof. intros E. unfold mbind, M_bind, bind. now rewrite E. Qed.

Lemma bind_lift {A B} (a : A) (k : A → M B) h :
  (lift (Normal a) ≫= k) h = k a h.
Proof. reflexivity. Qed.

Lemma read_at h r xs : h !! r = Some xs → read r h = (Normal xs, h).
Proof. intros E. unfold read, contents. now rewrite E. Qed.

Lemma length_at h r xs : h !! r = Some xs → length r h = (Normal (List.length xs), h).
Proof. intros E. unfold length. now rewrite (bind_normal _ _ _ _ _ (read_at _ _ _ E)). Qed.

Lemma index_at h r xs i :
  h !! r = Some xs → index r i h = (Normal (default VUndefined (xs !! i)), h).
Proof. intros E. unfold index. now rewrite (bind_normal _ _ _ _ _ (read_at _ _ _ E)). Qed.

Lemma push_at h r xs v :
  h !! r = Some xs →
  push r v h = (Normal (S (List.length xs)), <[r := xs ++ [v]]> h).
Proof. intros E. unfold push. now rewrite (bind_normal _ _ _ _ _ (read_at _ _ _ E)). Qed.

Lemma assign_at h r xs i v :
  h !! r = Some xs → assign r i v h = (Normal tt, <[r := store_at i v xs]> h).
Proof. intros E. unfold assign. now rewrite (bind_normal _ _ _ _ _ (read_at _ _ _ E)). Qed.

Lemma find_at h r xs cb found :
  h !! r = Some xs → findM cb 0 xs = Normal found →
  find r cb h =
    (Normal (match found with Some (_, x) => x | None => VUndefined end), h).
Proof.
  intros E F. unfold find.
  rewrite (bind_normal _ _ _ _ _ (read_at _ _ _ E)), F. reflexivity.
Qed.

Lemma findIndex_at h r xs cb found :
  h !! r = Some xs → findM cb 0 xs = Normal found →
  findIndex r cb h =
    (Normal (match found with Some (i, _) => Some i | None => None end), h).
Proof.
  intros E F. unfold findIndex.
  rewrite (bind_normal _ _ _ _ _ (read_at _ _ _ E)), F. reflexivity.
Qed.

(** A fresh reference is none of the references in use. *)
Lemma fresh_ne (h : heap) r xs : h !! r = Some xs → fresh (dom h) ≠ r.
Proof.
  intros E F. apply (is_fresh (dom h)). rewrite F.
  apply elem_of_dom. eauto.
Qed.

Lemma alloc_at xs h : alloc xs h = (Normal (fresh (dom h)), <[fresh (dom h) := xs]> h).
Proof. reflexivity. Qed.

Lemma map_at h a xs cb ys :
  h !! a = Some xs → mapM cb xs = Normal ys →
  map a cb h = (Normal (fresh (dom h)), <[fresh (dom h) := ys]> h).
Proof.
  intros E F. unfold map.
  rewrite (bind_normal _ _ _ _ _ (read_at _ _ _ E)), F. reflexivity.
Qed.

Lemma new_Set_at h a xs : h !! a = Some xs → new_Set a h = (Normal (set_of xs), h).
Proof.
  intros E. unfold new_Set.
  now rewrite (bind_normal _ _ _ _ _ (read_at _ _ _ E)).
Qed.

Lemma sort_at h a xs ys :
  h !! a = Some xs → JS.sort xs = Normal ys →
  sort a h = (Normal a, <[a := ys]> h).
Proof.
  intros E F. unfold sort.
  rewrite (bind_normal _ _ _ _ _ (read_at _ _ _ E)), F. reflexivity.
Qed.

Lemma sort_throws h a xs e :
  h !! a = Some xs → JS.sort xs = Throw e → sort a h = (Throw e, h).
Proof.
  intros E F. unfold sort.
  rewrite (bind_normal _ _ _ _ _ (read_at _ _ _ E)), F. reflexivity.
Qed.

Lemma filter_at h a xs cb ys :
  h !! a = Some xs → filterM cb xs = Normal ys →
  filter a cb h = (Normal (fresh (dom h)), <[fresh (dom h) := ys]> h).
Proof.
  intros E F. unfold filter.
  rewrite (bind_normal _ _ _ _ _ (read_at _ _ _ E)), F. reflexivity.
Qed.

Lemma spread_at h a xs :
  h !! a = Some xs →
  spread a h = (Normal (fresh (dom h)), <[fresh (dom h) := xs]> h).
Proof.
  intros E. unfold spread.
  now rewrite (bind_normal _ _ _ _ _ (read_at _ _ _ E)).
Qed.

Lemma slice_at h a xs e :
  h !! a = Some xs →
  slice a e h =
    (Normal (fresh (dom h)),
     <[fresh (dom h) := take (slice_end (List.length xs) e) xs]> h).
Proof.
  intros E. unfold slice.
  now rewrite (bind_normal _ _ _ _ _ (read_at _ _ _ E)).
Qed.

Lemma bind_lift_whole {A B} (a : A) (k : A → M B) : (lift (Normal a) ≫= k) = k a.
Proof. reflexivity. Qed.

Lemma get_field v k : nullish v = false → get v k = Normal (field v k).
Proof. destruct v; simpl; congruence. Qed.

Lemma is_object_get v k : is_object v → get v k = Normal (field v k).
Proof. intros [m ->]. reflexivity. Qed.

Lemma truthy_field_object v k : truthy (field v k) = true → is_object v.
Proof. destruct v; simpl; try discriminate. eexists; reflexivity. Qed.
Lemma pure_bind {A B} (a : A) (k : A → completion B) : (Normal a ≫= k) = k a.
Proof. reflexivity. Qed.

Lemma object_head k v l : field (object ((k, v) :: l)) k = v.
Proof. unfold field, object. rewrite list_to_map_cons, lookup_insert_eq. reflexivity. Qed.

(** The creation handler once the request body is destructured. *)
Lemma post_book_destructured now req_body h :
  nullish req_body = false →
  post_book now req_body h =
  try_catch "Failed to create book" (
    if negb (truthy (field req_body "title")) || negb (truthy (field req_body "author"))
       || negb (truthy (field req_body "genre")) || negb (truthy (field req_body "price"))
    then mret (message 400 "Title, author, genre, and price are required")
    else
      size ← length books;
      year ← lift (parseInt (field req_body "publishedYear"));
      amount ← lift (parseFloat (field req_body "price"));
      count ← lift (parseInt (field req_body "pages"));
      let newBook := object [
        ("id", VNum (Num.of_nat size + 1)%float);
        ("title", field req_body "title");
        ("author", field req_body "author");
        ("isbn", or_else (field req_body "isbn") (VStr ""));
        ("publishedYear", or_else (VNum year) (VNum (getFullYear now)));
        ("genre", field req_body "genre");
        ("price", VNum amount);
        ("description", or_else (field req_body "description") (VStr ""));
        ("pages", or_else (VNum count) (VNum 0%float));
        ("publisher", or_else (field req_body "publisher") (VStr ""));
        ("language", or_else (field req_body "language") (VStr "English"));
        ("rating", VNum 0%float);
        ("stock", VNum 0%float);
        ("image", or_else (field req_body "image") (VStr placeholder_image));
        ("createdAt", VStr (toISOString now))] in
      _ ← push books newBook;
      mret (json 201 (object [("message", VStr "Book created successfully");
                              ("book", newBook)]))) h.
Proof.
  intros Hb. unfold post_book, try_catch.
  rewrite !get_field by done. rewrite !bind_lift. reflexivity.
Qed.


(** A request with a falsy required field is answered by the validation
    response. *)
Lemma post_book_rejects now req_body h k :
  nullish req_body = false →
  In k required →
  truthy (field req_body k) = false →
  rejected now req_body h.
Proof.
  intros Hb Hk Hm. unfold rejected. rewrite post_book_destructured by done.
  assert (negb (truthy (field req_body "title"))
          || negb (truthy (field req_body "author"))
          || negb (truthy (field req_body "genre"))
          || negb (truthy (field req_body "price")) = true) as ->.
  { simpl in Hk. destruct Hk as [<-|[<-|[<-|[<-|[]]]]];
      rewrite Hm; simpl; rewrite ?orb_true_r; reflexivity. }
  reflexivity.
Qed.
Lemma has_id_object id b : is_object b → has_id id b = Normal (identifies id b).
Proof. intros [m ->]. reflexivity. Qed.

Lemma findM_absent id bs k :
  Forall is_object bs → absent id bs → findM (has_id id) k bs = Normal None.
Proof.
  intros Ho Ha. revert k. induction bs as [|b bs IH]; intros k; [reflexivity|].
  apply Forall_cons in Ho as [Hb Ho]. apply Forall_cons in Ha as [Hn Ha].
  simpl. rewrite (has_id_object _ _ Hb), pure_bind, Hn. now apply IH.
Qed.

Lemma findM_located id bs k i old :
  Forall is_object bs → located id bs i old →
  findM (has_id id) k bs = Normal (Some (k + i, old)).
Proof.
  intros Ho. revert k i. induction bs as [|b bs IH]; intros k i (Hi & Hid & Hbefore).
  - discriminate.
  - apply Forall_cons in Ho as [Hb Ho]. simpl.
    rewrite (has_id_object _ _ Hb), pure_bind.
    destruct i as [|i].
    + injection Hi as ->. rewrite Hid. do 3 f_equal. lia.
    + rewrite (Hbefore 0 b) by (simpl; done || lia).
      rewrite (IH Ho (S k) i).
      * do 3 f_equal. lia.
      * repeat split; [exact Hi|exact Hid|].
        intros j c Hj Hc. apply (Hbefore (S j) c); [lia|exact Hc].
Qed.

Lemma store_at_within i v (xs : list value) :
  i < List.length xs → store_at i v xs = <[i := v]> xs.
Proof. intros Hi. unfold store_at. now rewrite decide_True. Qed.

(** An update of a book that is there. *)
Lemma put_book_located id req_body h bs i old :
  collection h bs → Forall is_object bs → located id bs i old →
  updated id req_body h bs i (merged old req_body (field old "id")).
Proof.
  intros Hc Ho Hl. unfold updated, put_book, try_catch.
  rewrite (bind_normal _ _ _ _ _
             (findIndex_at _ _ _ _ _ Hc (findM_located id bs 0 i old Ho Hl))).
  destruct Hl as (Hi & _ & _).
  rewrite !(bind_normal _ _ _ _ _ (index_at _ _ _ i Hc)), Hi.
  simpl default.
  assert (is_object old) as Hold.
  { eapply Forall_lookup_1; [exact Ho|exact Hi]. }
  rewrite (is_object_get _ "id" Hold), bind_lift.
  rewrite (bind_normal _ _ _ _ _ (assign_at _ _ _ _ _ Hc)).
  rewrite store_at_within by (eapply lookup_lt_Some; exact Hi).
  reflexivity.
Qed.

Lemma merged_merges old req_body :
  is_object old →
  merges (λ k, k = "id") old req_body (merged old req_body (field old "id")).
Proof.
  intros [m ->]. unfold merges, merged. split; [eexists; reflexivity|]. split.
  - intros k v Hk Hv. simpl field.
    rewrite lookup_insert_ne by congruence.
    now rewrite (lookup_union_Some_l _ _ _ _ Hv).
  - intros k Hk. simpl field. destruct (decide (k = "id")) as [->|Hne].
    + now rewrite lookup_insert_eq.
    + rewrite lookup_insert_ne by congruence.
      now rewrite lookup_union_r.
Qed.
Lemma object_tail k k' v l :
  k ≠ k' → field (object ((k', v) :: l)) k = field (object l) k.
Proof.
  intros Hne. unfold field, object.
  rewrite list_to_map_cons, lookup_insert_ne by congruence. reflexivity.
Qed.

End Run.

(* ===================================================================== *)
(** ** Creation *)
(* ===================================================================== *)

Module Creation.
Import JS Heap Routes Spec Examples Run.
Import PrimFloat.

(** C2: a create request in which one of title, author, genre and price is
    missing is answered with the 400 validation response, and the store -
    so the collection, its size and its records - is left as it was. *)
Theorem create_missing_field_rejected now req_body h k :
  nullish req_body = false →
  In k required →
  field req_body k = VUndefined →
  rejected now req_body h.
Proof.
  intros Hb Hk Hm. apply (post_book_rejects _ _ _ k); [done..|].
  now rewrite Hm.
Qed.

Lemma create_missing_field_rejected_witness :
  field title_only "author" = VUndefined ∧ rejected now title_only store.
Proof.
  split; [reflexivity|].
  apply (create_missing_field_rejected now title_only store "author").
  - reflexivity.
  - simpl. tauto.
  - reflexivity.
Defined.






End Creation.


(* ===================================================================== *)
(** ** Lookup, update and deletion by identifier *)
(* ===================================================================== *)

Module ByIdentifier.
Import JS Heap Routes Spec Examples Run.
Import PrimFloat.

(** C4: for an identifier no book of the collection carries, fetching,
    updating and deleting each answer with the 404 not-found response and
    leave the store - the collection, its records and their order - as it
    was. *)
Theorem unknown_identifier_not_found h bs id :
  collection h bs → Forall is_object bs → absent id bs →
  not_found (get_book id h) h ∧
  (∀ req_body, not_found (put_book id req_body h) h) ∧
  not_found (delete_book id h) h.
Proof.
  intros Hc Ho Ha. pose proof (findM_absent id bs 0 Ho Ha) as Hf.
  unfold not_found. repeat split.
  - unfold get_book, try_catch.
    now rewrite (bind_normal _ _ _ _ _ (find_at _ _ _ _ _ Hc Hf)).
  - intros req_body. unfold put_book, try_catch.
    now rewrite (bind_normal _ _ _ _ _ (findIndex_at _ _ _ _ _ Hc Hf)).
  - unfold delete_book, try_catch.
    now rewrite (bind_normal _ _ _ _ _ (findIndex_at _ _ _ _ _ Hc Hf)).
Qed.

Lemma unknown_identifier_not_found_witness :
  not_found (get_book "999" store) store ∧
  (∀ req_body, not_found (put_book "999" req_body store) store) ∧
  not_found (delete_book "999" store) store.
Proof.
  apply (unknown_identifier_not_found store seed "999").
  - reflexivity.
  - repeat constructor; eexists; reflexivity.
  - repeat constructor.
Defined.

(** C5: an update of a book that is in the collection answers with a
    record whose identifier is the identifier of the original record,
    whatever [id] the request body supplies. *)
Theorem update_keeps_identifier h bs id req_body i old :
  collection h bs → Forall is_object bs → located id bs i old →
  ∃ upd, updated id req_body h bs i upd ∧ field upd "id" = field old "id".
Proof.
  intros Hc Ho Hl. eexists.
  split; [exact (put_book_located id req_body h bs i old Hc Ho Hl)|].
  unfold merged, field at 1. now rewrite lookup_insert_eq.
Qed.

Lemma update_keeps_identifier_witness :
  ∃ upd, updated "2" renumbering store seed 1 upd ∧
         field upd "id" = VNum (Num.of_Z 2).
Proof.
  apply (update_keeps_identifier store seed "2" renumbering 1
           (sample 2 "Dune" "Frank Herbert" "Sci-Fi" "The spice of Arrakis" 10 1965)).
  - reflexivity.
  - repeat constructor; eexists; reflexivity.
  - split; [reflexivity|]. split; [reflexivity|].
    intros j b Hj Hb. destruct j as [|j]; [|lia].
    injection Hb as <-. reflexivity.
Defined.



End ByIdentifier.

(* ===================================================================== *)
(** ** The read operations *)
(* ===================================================================== *)

Module Reading.
Import JS Heap Routes Spec Examples Run.

Lemma keeps_ret {A} (ok : A → Prop) a : ok a → keeps ok (mret a).
Proof. intros Ha h bs Hc. split; [exact Hc|]. intros b [= <-]. exact Ha. Qed.

Lemma keeps_bind {A B} (ok : A → Prop) (ok' : B → Prop) (m : M A) (k : A → M B) :
  keeps ok m → (∀ a, ok a → keeps ok' (k a)) → keeps ok' (m ≫= k).
Proof.
  intros Hm Hk h bs Hc. destruct (Hm h bs Hc) as [Hc' Hok].
  unfold mbind, M_bind, bind. destruct (m h) as [[a|e] h']; simpl in *.
  - apply (Hk a); [now apply Hok|exact Hc'].
  - split; [exact Hc'|discriminate].
Qed.

Lemma keeps_lift {A} (c : completion A) : keeps (λ _, True) (lift c).
Proof. intros h bs Hc. split; [exact Hc|done]. Qed.

Lemma keeps_read r : keeps (λ _, True) (read r).
Proof. intros h bs Hc. split; [exact Hc|done]. Qed.

Lemma keeps_alloc xs : keeps temporary (alloc xs).
Proof.
  intros h bs Hc. unfold alloc, collection, temporary in *. simpl. split.
  - rewrite lookup_insert_ne; [exact Hc|]. now apply (fresh_ne h books bs).
  - intros r [= <-]. now apply (fresh_ne h books bs).
Qed.

Lemma keeps_write r xs : temporary r → keeps (λ _, True) (write r xs).
Proof.
  intros Hr h bs Hc. unfold write, collection in *. simpl.
  split; [|done]. now rewrite lookup_insert_ne.
Qed.

Lemma keeps_spread a : keeps temporary (spread a).
Proof.
  unfold spread. eapply keeps_bind; [apply keeps_read|].
  intros xs _. apply keeps_alloc.
Qed.

Lemma keeps_length a : keeps (λ _, True) (length a).
Proof.
  unfold length. eapply keeps_bind; [apply keeps_read|].
  intros xs _. now apply keeps_ret.
Qed.

Lemma keeps_filter a cb : keeps temporary (filter a cb).
Proof.
  unfold filter. eapply keeps_bind; [apply keeps_read|]. intros xs _.
  eapply keeps_bind; [apply keeps_lift|]. intros ys _. apply keeps_alloc.
Qed.

Lemma keeps_map a cb : keeps temporary (map a cb).
Proof.
  unfold map. eapply keeps_bind; [apply keeps_read|]. intros xs _.
  eapply keeps_bind; [apply keeps_lift|]. intros ys _. apply keeps_alloc.
Qed.

Lemma keeps_find a cb : keeps (λ _, True) (find a cb).
Proof.
  unfold find. eapply keeps_bind; [apply keeps_read|]. intros xs _.
  eapply keeps_bind; [apply keeps_lift|]. intros ys _. now apply keeps_ret.
Qed.

Lemma keeps_slice a e : keeps temporary (slice a e).
Proof.
  unfold slice. eapply keeps_bind; [apply keeps_read|].
  intros xs _. apply keeps_alloc.
Qed.

Lemma keeps_new_Set a : keeps (λ _, True) (new_Set a).
Proof.
  unfold new_Set. eapply keeps_bind; [apply keeps_read|].
  intros xs _. now apply keeps_ret.
Qed.

(** Sorting changes the array it is called on: the collection is kept when
    that array is another one. *)
Lemma keeps_sort a : temporary a → keeps temporary (sort a).
Proof.
  intros Ha. unfold sort. eapply keeps_bind; [apply keeps_read|]. intros xs _.
  eapply keeps_bind; [apply keeps_lift|]. intros ys _.
  eapply keeps_bind; [now apply keeps_write|]. intros _ _.
  now apply keeps_ret.
Qed.

Lemma keeps_try_catch {ok} text (m : M response) h bs :
  keeps ok m → collection h bs → collection (try_catch text m h).2 bs.
Proof.
  intros Hm Hc. destruct (Hm h bs Hc) as [Hc' _]. unfold try_catch.
  destruct (m h) as [[r|e] h']; exact Hc'.
Qed.

(** One step of a chain of statements. *)
Ltac keep :=
  lazymatch goal with
  | |- keeps _ (mret _) => apply keeps_ret; try exact I; try assumption
  | |- keeps _ (_ ≫= _) => eapply keeps_bind; [|intros ? ?]
  | |- keeps _ (if ?c then _ else _) => destruct c
  | |- keeps _ (lift _) => apply keeps_lift
  | |- keeps _ (read _) => apply keeps_read
  | |- keeps _ (spread _) => apply keeps_spread
  | |- keeps _ (length _) => apply keeps_length
  | |- keeps _ (filter _ _) => apply keeps_filter
  | |- keeps _ (map _ _) => apply keeps_map
  | |- keeps _ (find _ _) => apply keeps_find
  | |- keeps _ (slice _ _) => apply keeps_slice
  | |- keeps _ (new_Set _) => apply keeps_new_Set
  | |- keeps _ (spread_Set _) => apply keeps_alloc
  | |- keeps _ (sort _) => apply keeps_sort; assumption
  end.

Lemma get_books_keeps query h bs :
  collection h bs → collection (get_books query h).2 bs.
Proof.
  unfold get_books. apply (keeps_try_catch (ok := λ _, True)).
  repeat keep.
Qed.

Lemma get_book_keeps id h bs :
  collection h bs → collection (get_book id h).2 bs.
Proof.
  unfold get_book. apply (keeps_try_catch (ok := λ _, True)).
  repeat keep.
Qed.

Lemma get_meta_keeps property text h bs :
  collection h bs → collection (get_meta property text h).2 bs.
Proof.
  unfold get_meta. apply (keeps_try_catch (ok := λ _, True)).
  repeat keep.
Qed.

(** C8: every read operation - the list, the fetch of one book, the genres
    and the authors - leaves the collection unchanged, for every query and
    every identifier, whether the handler answers or fails. *)
Theorem reads_keep_collection h bs :
  collection h bs →
  (∀ query, collection (get_books query h).2 bs) ∧
  (∀ id, collection (get_book id h).2 bs) ∧
  collection (get_meta_genres h).2 bs ∧
  collection (get_meta_authors h).2 bs.
Proof.
  intros Hc. repeat split.
  - intros query. now apply get_books_keeps.
  - intros id. now apply get_book_keeps.
  - now apply get_meta_keeps.
  - now apply get_meta_keeps.
Qed.

Lemma reads_keep_collection_witness :
  (∀ query, collection (get_books query store).2 seed) ∧
  (∀ id, collection (get_book id store).2 seed) ∧
  collection (get_meta_genres store).2 seed ∧
  collection (get_meta_authors store).2 seed.
Proof. apply (reads_keep_collection store seed). reflexivity. Defined.
End Reading.

(* ===================================================================== *)
(** ** The collection stays a collection of objects *)
(* ===================================================================== *)

(** The theorems on lookups and lists take a collection whose elements
    are objects.  Every handler keeps it so: a collection that starts as
    objects is one after any sequence of requests. *)
Module Invariant.
Import JS Heap Routes Spec Examples Run Reading.

Lemma is_object_object fields : is_object (object fields).
Proof. eexists. reflexivity. Qed.

Lemma findM_objects id bs k :
  Forall is_object bs →
  findM (has_id id) k bs = Normal None ∨
  ∃ i old, findM (has_id id) k bs = Normal (Some (k + i, old)) ∧ bs !! i = Some old.
Proof.
  intros Ho. revert k. induction Ho as [|b bs Hb _ IH]; intros k; [now left|].
  cbn [findM]. rewrite (has_id_object _ _ Hb), pure_bind.
  destruct (identifies id b).
  - right. exists 0, b. split; [|reflexivity]. do 3 f_equal. lia.
  - destruct (IH (S k)) as [E|(i & old & E & Hi)]; [now left|].
    right. exists (S i), old. split; [|exact Hi].
    rewrite E. do 3 f_equal. lia.
Qed.

Lemma post_book_objects now req_body h :
  objects h → objects (post_book now req_body h).2.
Proof.
  intros (bs & Hc & Ho).
  destruct (nullish req_body) eqn:Hn.
  { exists bs. split; [|exact Ho]. destruct req_body; try discriminate; exact Hc. }
  rewrite post_book_destructured by exact Hn. unfold try_catch.
  destruct (negb _ || negb _ || negb _ || negb _).
  { exists bs. split; [exact Hc|exact Ho]. }
  rewrite (bind_normal _ _ _ _ _ (length_at _ _ _ Hc)).
  destruct (parseInt (field req_body "publishedYear")) as [year|e];
    [rewrite bind_lift|exists bs; split; [exact Hc|exact Ho]].
  destruct (parseFloat (field req_body "price")) as [amount|e];
    [rewrite bind_lift|exists bs; split; [exact Hc|exact Ho]].
  destruct (parseInt (field req_body "pages")) as [count|e];
    [rewrite bind_lift|exists bs; split; [exact Hc|exact Ho]].
  rewrite (bind_normal _ _ _ _ _ (push_at _ _ _ _ Hc)).
  eexists. split; [apply lookup_insert_eq|].
  apply Forall_app. split; [exact Ho|].
  apply Forall_cons_2; [apply is_object_object|apply Forall_nil_2].
Qed.

Lemma put_book_objects id req_body h :
  objects h → objects (put_book id req_body h).2.
Proof.
  intros (bs & Hc & Ho). unfold put_book, try_catch.
  destruct (findM_objects id bs 0 Ho) as [E|(i & old & E & Hi)].
  - rewrite (bind_normal _ _ _ _ _ (findIndex_at _ _ _ _ _ Hc E)).
    exists bs. split; [exact Hc|exact Ho].
  - rewrite (bind_normal _ _ _ _ _ (findIndex_at _ _ _ _ _ Hc E)).
    rewrite !(bind_normal _ _ _ _ _ (index_at _ _ _ i Hc)), Hi.
    simpl default.
    rewrite (is_object_get _ "id" (Forall_lookup_1 _ _ _ _ Ho Hi)), bind_lift.
    rewrite (bind_normal _ _ _ _ _ (assign_at _ _ _ _ _ Hc)).
    rewrite store_at_within by (eapply lookup_lt_Some; exact Hi).
    eexists. split; [apply lookup_insert_eq|].
    apply Forall_insert; [exact Ho|]. eexists. reflexivity.
Qed.

Lemma splice_at h a xs i :
  h !! a = Some xs →
  splice a i h =
    (Normal (fresh (dom (<[a := take i xs ++ drop (S i) xs]> h))),
     <[fresh (dom (<[a := take i xs ++ drop (S i) xs]> h)) := take 1 (drop i xs)]>
       (<[a := take i xs ++ drop (S i) xs]> h)).
Proof.
  intros E. unfold splice.
  now rewrite (bind_normal _ _ _ _ _ (read_at _ _ _ E)).
Qed.

Lemma delete_book_objects id h :
  objects h → objects (delete_book id h).2.
Proof.
  intros (bs & Hc & Ho). unfold delete_book, try_catch.
  destruct (findM_objects id bs 0 Ho) as [E|(i & old & E & Hi)];
    rewrite (bind_normal _ _ _ _ _ (findIndex_at _ _ _ _ _ Hc E)).
  - exists bs. split; [exact Hc|exact Ho].
  - rewrite (bind_normal _ _ _ _ _ (splice_at _ _ _ _ Hc)).
    rewrite (bind_normal _ _ _ _ _ (index_at _ _ _ 0 (lookup_insert_eq _ _ _))).
    cbn [Nat.add snd mret M_ret ret].
    exists (take i bs ++ drop (S i) bs). split.
    + unfold collection. rewrite lookup_insert_ne; [apply lookup_insert_eq|].
      apply (fresh_ne _ books (take i bs ++ drop (S i) bs)).
      apply lookup_insert_eq.
    + apply Forall_app. split; [now apply Forall_take|now apply Forall_drop].
Qed.

(** Every handler: the collection of objects stays one. *)
Lemma handlers_keep_objects h :
  objects h →
  (∀ query, objects (get_books query h).2) ∧
  (∀ id, objects (get_book id h).2) ∧
  objects (get_meta_genres h).2 ∧
  objects (get_meta_authors h).2 ∧
  (∀ now req_body, objects (post_book now req_body h).2) ∧
  (∀ id req_body, objects (put_book id req_body h).2) ∧
  (∀ id, objects (delete_book id h).2).
Proof.
  intros Hobj. pose proof Hobj as (bs & Hc & Ho). repeat split.
  - intros query. exists bs. split; [now apply get_books_keeps|exact Ho].
  - intros id. exists bs. split; [now apply get_book_keeps|exact Ho].
  - exists bs. split; [now apply get_meta_keeps|exact Ho].
  - exists bs. split; [now apply get_meta_keeps|exact Ho].
  - intros now req_body. now apply post_book_objects.
  - intros id req_body. now apply put_book_objects.
  - intros id. now apply delete_book_objects.
Qed.
End Invariant.

(* ===================================================================== *)
(** ** The metadata lists *)
(* ===================================================================== *)

Module Order.
Import Spec.
Local Open Scope Z_scope.

Lemma code_inj a b : Latin1.code a = Latin1.code b → a = b.
Proof.
  unfold Latin1.code. intros H. apply N2Z.inj in H.
  rewrite <- (ascii_N_embedding a), <- (ascii_N_embedding b). now f_equal.
Qed.

Lemma ltb_irrefl s : Latin1.ltb s s = false.
Proof.
  induction s as [|a s IH]; [reflexivity|]. simpl.
  now rewrite Z.ltb_irrefl.
Qed.

Lemma ltb_asym s t : Latin1.ltb s t = true → Latin1.ltb t s = false.
Proof.
  revert t. induction s as [|a s IH]; intros [|b t]; simpl; try done.
  destruct (Z.ltb_spec (Latin1.code a) (Latin1.code b)),
           (Z.ltb_spec (Latin1.code b) (Latin1.code a)); try done; try lia.
  apply IH.
Qed.

Lemma ltb_total s t : Latin1.ltb s t = false → Latin1.ltb t s = false → s = t.
Proof.
  revert t. induction s as [|a s IH]; intros [|b t]; simpl; try done.
  destruct (Z.ltb_spec (Latin1.code a) (Latin1.code b)),
           (Z.ltb_spec (Latin1.code b) (Latin1.code a)); try done.
  intros Hs Ht. f_equal; [apply code_inj; lia|now apply IH].
Qed.

Lemma ltb_trans s t u :
  Latin1.ltb s t = true → Latin1.ltb t u = true → Latin1.ltb s u = true.
Proof.
  revert t u. induction s as [|a s IH]; intros [|b t] [|c u]; simpl; try done.
  destruct (Z.ltb_spec (Latin1.code a) (Latin1.code b)),
           (Z.ltb_spec (Latin1.code b) (Latin1.code a)),
           (Z.ltb_spec (Latin1.code b) (Latin1.code c)),
           (Z.ltb_spec (Latin1.code c) (Latin1.code b)),
           (Z.ltb_spec (Latin1.code a) (Latin1.code c)),
           (Z.ltb_spec (Latin1.code c) (Latin1.code a));
    try done; try lia.
  apply IH.
Qed.

Lemma le_trans s t u : le s t → le t u → le s u.
Proof.
  unfold le. intros Hst Htu.
  destruct (Latin1.ltb u s) eqn:Hus; [|reflexivity].
  destruct (Latin1.ltb t u) eqn:Htu'.
  - now rewrite (ltb_trans t u s Htu' Hus) in Hst.
  - rewrite (ltb_total _ _ Htu' Htu) in Hst. congruence.
Qed.

Lemma lt_le s t : Latin1.ltb s t = true → le s t.
Proof. apply ltb_asym. Qed.
End Order.

(* ===================================================================== *)
(** ** Distinct values, sorted *)
(* ===================================================================== *)

Module Metadata.
Import JS Heap Routes Spec Examples Run Order.

(** Adding a string to a set of strings. *)
Lemma set_add_strings g (acc : list string) :
  NoDup acc →
  ∃ acc', set_add (VStr g) (VStr <$> acc) = VStr <$> acc' ∧ NoDup acc' ∧
          ∀ s, s ∈ acc' ↔ s ∈ acc ∨ s = g.
Proof.
  induction acc as [|a acc IH]; intros Hnd.
  - exists [g]. split; [reflexivity|]. split; [apply NoDup_singleton|].
    intros s. rewrite list_elem_of_singleton. set_solver.
  - apply NoDup_cons in Hnd as [Ha Hnd]. rewrite fmap_cons.
    cbn [set_add same_value_zero].
    destruct (String.eqb_spec a g) as [->|Hne].
    + exists (g :: acc). split; [reflexivity|].
      split; [now apply NoDup_cons|]. set_solver.
    + destruct (IH Hnd) as (acc' & -> & Hnd' & Hin).
      exists (a :: acc'). split; [reflexivity|]. split.
      * apply NoDup_cons. split; [|exact Hnd']. rewrite Hin. set_solver.
      * intros s. rewrite !elem_of_cons, Hin. tauto.
Qed.

Lemma set_of_strings_from (names acc : list string) :
  NoDup acc →
  ∃ out, fold_left (λ s v, set_add (normalize_zero v) s) (VStr <$> names)
           (VStr <$> acc) = VStr <$> out ∧
         NoDup out ∧ ∀ s, s ∈ out ↔ s ∈ acc ∨ s ∈ names.
Proof.
  revert acc. induction names as [|g names IH]; intros acc Hnd.
  - exists acc. split; [reflexivity|]. split; [exact Hnd|]. set_solver.
  - rewrite fmap_cons. cbn [fold_left normalize_zero].
    destruct (set_add_strings g acc Hnd) as (acc' & -> & Hnd' & Hin).
    destruct (IH acc' Hnd') as (out & -> & Hnd'' & Hin').
    exists out. split; [reflexivity|]. split; [exact Hnd''|].
    intros s. rewrite Hin', Hin, elem_of_cons. tauto.
Qed.

(** The set made from strings lists each of them once. *)
Lemma set_of_strings (names : list string) :
  ∃ out, set_of (VStr <$> names) = VStr <$> out ∧
         NoDup out ∧ ∀ s, s ∈ out ↔ s ∈ names.
Proof.
  destruct (set_of_strings_from names [] (NoDup_nil_2 (A:=string))) as (out & E & Hnd & Hin).
  exists out. split; [exact E|]. split; [exact Hnd|].
  intros s. rewrite Hin. set_solver.
Qed.

Lemma insert_by_key_strings d (out : list string) :
  StronglySorted le out →
  ∃ out', insert_by_key (keyed d) (keyed <$> out) = keyed <$> out' ∧
          out' ≡ₚ d :: out ∧ StronglySorted le out'.
Proof.
  induction out as [|y out IH]; intros Hs.
  - exists [d]. split; [reflexivity|]. split; [reflexivity|].
    repeat constructor.
  - apply StronglySorted_inv in Hs as [Hs Hy]. rewrite fmap_cons.
    cbn [insert_by_key keyed fst]. destruct (Latin1.ltb y d) eqn:Hyd.
    + destruct (IH Hs) as (out' & -> & Hp & Hs').
      exists (y :: out'). split; [reflexivity|]. split.
      * rewrite Hp. apply Permutation_swap.
      * constructor; [exact Hs'|]. rewrite Hp.
        constructor; [now apply lt_le|exact Hy].
    + exists (d :: y :: out). split; [reflexivity|]. split; [reflexivity|].
      constructor; [now constructor|].
      constructor; [exact Hyd|].
      eapply Forall_impl; [exact Hy|]. intros z Hz.
      now apply (le_trans d y z).
Qed.

Lemma combine_keyed (names : list string) :
  combine names (VStr <$> names) = keyed <$> names.
Proof. induction names as [|g names IH]; [reflexivity|]. csimpl. now rewrite IH. Qed.

Lemma sort_by_key_strings (names : list string) :
  ∃ out, sort_by_key (keyed <$> names) = keyed <$> out ∧
         out ≡ₚ names ∧ StronglySorted le out.
Proof.
  induction names as [|g names (out & E & Hp & Hs)].
  - exists []. split; [reflexivity|]. split; [reflexivity|constructor].
  - unfold sort_by_key in *. rewrite fmap_cons. cbn [foldr]. rewrite E.
    destruct (insert_by_key_strings g out Hs) as (out' & -> & Hp' & Hs').
    exists out'. split; [reflexivity|]. split; [|exact Hs'].
    now rewrite Hp', Hp.
Qed.

Lemma mapM_to_string_strings (names : list string) :
  mapM to_string (VStr <$> names) = Normal names.
Proof.
  induction names as [|g names IH]; [reflexivity|].
  csimpl. rewrite ?pure_bind, IH. reflexivity.
Qed.

Lemma filter_defined_strings (names : list string) :
  List.filter (λ v, negb (is_undefined v)) (VStr <$> names) = VStr <$> names.
Proof. induction names as [|g names IH]; [reflexivity|]. csimpl. now rewrite IH. Qed.

Lemma filter_undefined_strings (names : list string) :
  List.filter is_undefined (VStr <$> names) = [].
Proof. induction names as [|g names IH]; [reflexivity|]. csimpl. exact IH. Qed.

Lemma snd_keyed (names : list string) : List.map snd (keyed <$> names) = VStr <$> names.
Proof. induction names as [|g names IH]; [reflexivity|]. csimpl. now rewrite IH. Qed.

(** Sorting an array of strings gives the same strings in order. *)
Lemma sort_strings (names : list string) :
  ∃ out, JS.sort (VStr <$> names) = Normal (VStr <$> out) ∧
         out ≡ₚ names ∧ StronglySorted le out.
Proof.
  unfold JS.sort. rewrite filter_defined_strings, filter_undefined_strings.
  destruct names as [|a [|b names]].
  - exists []. split; [reflexivity|]. split; [reflexivity|constructor].
  - exists [a]. split; [reflexivity|]. split; [reflexivity|repeat constructor].
  - change (VStr <$> a :: b :: names)
      with (VStr a :: VStr b :: (VStr <$> names)) at 1. cbv iota.
    rewrite mapM_to_string_strings, pure_bind, combine_keyed.
    destruct (sort_by_key_strings (a :: b :: names)) as (out & -> & Hp & Hs).
    exists out. rewrite snd_keyed, app_nil_r. done.
Qed.

Lemma sorted_distinct_ascending (out : list string) :
  StronglySorted le out → NoDup out → ascending out.
Proof.
  unfold ascending. induction 1 as [|a out Hs IH Ha]; intros Hnd; [constructor|].
  apply NoDup_cons in Hnd as [Hna Hnd]. constructor; [now apply IH|].
  apply Forall_forall. intros t Ht.
  rewrite Forall_forall in Ha. specialize (Ha t Ht).
  destruct (Latin1.ltb a t) eqn:Hat; [reflexivity|].
  rewrite (ltb_total a t Hat Ha) in Hna. done.
Qed.

Lemma mapM_get_objects property bs :
  Forall is_object bs →
  mapM (λ book, get book property) bs = Normal ((λ b, field b property) <$> bs).
Proof.
  induction 1 as [|b bs Hb _ IH]; [reflexivity|].
  csimpl. rewrite (is_object_get _ _ Hb), ?pure_bind, IH. reflexivity.
Qed.

(** The answer of a metadata handler is the sorted set of the properties. *)
Lemma get_meta_answer property text h bs :
  collection h bs → Forall is_object bs →
  (get_meta property text h).1 =
    match JS.sort (set_of ((λ b, field b property) <$> bs)) with
    | Normal out => json 200 (VArr out)
    | Throw e => {| status := 500; body := Fault text e |}
    end.
Proof.
  intros Hc Ho. unfold get_meta, try_catch, spread_Set.
  rewrite (bind_normal _ _ _ _ _
             (map_at _ _ _ _ _ Hc (mapM_get_objects property bs Ho))).
  set (h1 := <[fresh (dom h) := _]> h).
  rewrite (bind_normal _ _ _ _ _ (new_Set_at h1 _ _ (lookup_insert_eq _ _ _))).
  rewrite (bind_normal _ _ _ _ _ (alloc_at _ h1)).
  set (h2 := <[fresh (dom h1) := _]> h1).
  destruct (JS.sort (set_of ((λ b, field b property) <$> bs))) as [out|e] eqn:E.
  - rewrite (bind_normal _ _ _ _ _ (sort_at h2 _ _ _ (lookup_insert_eq _ _ _) E)).
    rewrite (bind_normal _ _ _ _ _ (read_at _ _ _ (lookup_insert_eq _ _ _))).
    reflexivity.
  - rewrite (bind_throw _ _ _ _ _ (sort_throws h2 _ _ _ (lookup_insert_eq _ _ _) E)).
    reflexivity.
Qed.

Lemma get_meta_strings property text h bs names :
  collection h bs → Forall is_object bs → texts property bs names →
  lists_distinct_sorted names (get_meta property text h).1.
Proof.
  intros Hc Ho Ht. rewrite (get_meta_answer _ _ _ _ Hc Ho), Ht.
  destruct (set_of_strings names) as (set & -> & Hnd & Hin).
  destruct (sort_strings set) as (out & -> & Hp & Hs).
  exists out. split; [reflexivity|].
  assert (NoDup out) as Hnd' by now rewrite Hp.
  split; [now apply sorted_distinct_ascending|]. split; [exact Hnd'|].
  intros s. now rewrite Hp, Hin.
Qed.

(** C7: the genres endpoint and the authors endpoint answer with the
    distinct genres, respectively authors, of the collection as it is,
    without duplicates and in ascending order; for a collection whose
    genres are Fiction, Sci-Fi, Fiction the genres endpoint answers with
    exactly Fiction, Sci-Fi. *)
Theorem meta_lists_distinct_sorted h bs :
  collection h bs → Forall is_object bs →
  (∀ genres, texts "genre" bs genres →
             lists_distinct_sorted genres (get_meta_genres h).1) ∧
  (∀ authors, texts "author" bs authors →
              lists_distinct_sorted authors (get_meta_authors h).1) ∧
  (texts "genre" bs ["Fiction"; "Sci-Fi"; "Fiction"] →
   (get_meta_genres h).1 = json 200 (VArr [VStr "Fiction"; VStr "Sci-Fi"])).
Proof.
  intros Hc Ho. split; [|split].
  - intros genres. now apply get_meta_strings.
  - intros authors. now apply get_meta_strings.
  - intros Ht. unfold get_meta_genres.
    rewrite (get_meta_answer _ _ _ _ Hc Ho), Ht. reflexivity.
Qed.

Lemma meta_lists_distinct_sorted_witness :
  lists_distinct_sorted ["Fiction"; "Sci-Fi"; "Fiction"] (get_meta_genres store).1 ∧
  lists_distinct_sorted ["Jane Austen"; "Frank Herbert"; "James Joyce"]
    (get_meta_authors store).1 ∧
  (get_meta_genres store).1 = json 200 (VArr [VStr "Fiction"; VStr "Sci-Fi"]).
Proof.
  destruct (meta_lists_distinct_sorted store seed) as (Hg & Ha & He).
  - reflexivity.
  - repeat constructor; eexists; reflexivity.
  - split; [apply Hg; reflexivity|].
    split; [apply Ha; reflexivity|]. apply He. reflexivity.
Defined.
End Metadata.

(* ===================================================================== *)
(** ** The list of books *)
(* ===================================================================== *)

Module Listing.
Import JS Heap Routes Spec Examples Run.
Import PrimFloat.

Lemma filterM_pure {A} (cb : A → completion bool) (p : A → bool) xs :
  Forall (λ x, cb x = Normal (p x)) xs → filterM cb xs = Normal (List.filter p xs).
Proof.
  induction 1 as [|x xs Hx _ IH]; [reflexivity|].
  cbn [filterM List.filter]. rewrite Hx, pure_bind, IH, pure_bind. reflexivity.
Qed.

(** *** Lists *)

Lemma Forall_filter {A} (P : A → Prop) (q : A → bool) l :
  Forall P l → Forall P (List.filter q l).
Proof.
  induction 1 as [|x l Hx _ IH]; [constructor|].
  cbn [List.filter]. destruct (q x); [now constructor|exact IH].
Qed.

Lemma filter_twice {A} (p q : A → bool) l :
  List.filter p (List.filter q l) = List.filter (λ x, q x && p x) l.
Proof.
  induction l as [|x l IH]; [reflexivity|].
  cbn [List.filter]. destruct (q x); cbn [List.filter andb]; now rewrite IH.
Qed.


(** *** The parameters *)

Lemma passes_truthy o (P : string → value → bool) b :
  passes o P b =
    if truthy (param o) then match o with Some s => P s b | None => true end
    else true.
Proof. destruct o as [[|c s]|]; reflexivity. Qed.

(** One optional filter: an array that holds the books that satisfy [q]
    gives way to one that holds those that pass the parameter too. *)
Lemma stage_at bs h a q o cb (P : string → value → bool) :
  Forall well_formed bs →
  h !! a = Some (List.filter q bs) →
  (∀ s b, o = Some s → well_formed b → cb b = Normal (P s b)) →
  ∃ a' h',
    (if truthy (param o) then filter a cb else mret a) h = (Normal a', h') ∧
    h' !! a' = Some (List.filter (λ b, q b && passes o P b) bs).
Proof.
  intros Hwf Hat Hcb.
  destruct (truthy (param o)) eqn:Ht.
  - destruct o as [s|]; [|discriminate].
    eexists _, _. split.
    + eapply filter_at; [exact Hat|]. apply (filterM_pure _ (P s)).
      eapply Forall_impl; [apply Forall_filter; exact Hwf|].
      intros b Hb. now apply Hcb.
    + rewrite lookup_insert_eq, filter_twice. f_equal.
      apply List.filter_ext. intros b. now rewrite passes_truthy, Ht.
  - exists a, h. split; [reflexivity|]. rewrite Hat. f_equal.
    apply List.filter_ext. intros b.
    now rewrite passes_truthy, Ht, andb_true_r.
Qed.

(** *** The callbacks on a well-formed book *)

Lemma lowered_text b k :
  well_formed b → k ∈ ["title"; "author"; "description"; "genre"] →
  lowered b k = Normal (Latin1.toLowerCase (text_of b k)).
Proof.
  intros (Ho & Hs & _) Hk. rewrite Forall_forall in Hs.
  destruct (Hs k Hk) as [s E]. unfold lowered, text_of.
  rewrite (is_object_get _ _ Ho), pure_bind, E. reflexivity.
Qed.

Lemma search_callback term b :
  well_formed b →
  or_lazy (s ← lowered b "title"; Normal (Latin1.includes s (Latin1.toLowerCase term)))
   (or_lazy (s ← lowered b "author"; Normal (Latin1.includes s (Latin1.toLowerCase term)))
   (or_lazy (s ← lowered b "description"; Normal (Latin1.includes s (Latin1.toLowerCase term)))
            (s ← lowered b "genre"; Normal (Latin1.includes s (Latin1.toLowerCase term)))))
  = Normal (search_matches term b).
Proof.
  intros Hb. unfold search_matches, or_lazy.
  rewrite !(lowered_text b) by (done || set_solver). rewrite !pure_bind.
  destruct (Latin1.includes (Latin1.toLowerCase (text_of b "title")) _); [reflexivity|].
  destruct (Latin1.includes (Latin1.toLowerCase (text_of b "author")) _); [reflexivity|].
  destruct (Latin1.includes (Latin1.toLowerCase (text_of b "description")) _); reflexivity.
Qed.

Lemma author_callback a b :
  well_formed b →
  (s ← lowered b "author"; t ← call_toLowerCase (VStr a);
   Normal (Latin1.includes s t)) = Normal (author_matches a b).
Proof.
  intros Hb. rewrite (lowered_text b) by (done || set_solver). reflexivity.
Qed.

Lemma genre_callback g b :
  well_formed b →
  (s ← lowered b "genre"; t ← call_toLowerCase (VStr g);
   Normal (String.eqb s t)) = Normal (genre_matches g b).
Proof.
  intros Hb. rewrite (lowered_text b) by (done || set_solver). reflexivity.
Qed.

Lemma min_price_callback bound b :
  well_formed b →
  (p ← get b "price"; m ← parseFloat (VStr bound); ge_number p m)
  = Normal (min_price_matches bound b).
Proof.
  intros (Ho & _ & x & E). unfold min_price_matches, number_of.
  rewrite (is_object_get _ _ Ho), E. reflexivity.
Qed.

Lemma max_price_callback bound b :
  well_formed b →
  (p ← get b "price"; m ← parseFloat (VStr bound); le_number p m)
  = Normal (max_price_matches bound b).
Proof.
  intros (Ho & _ & x & E). unfold max_price_matches, number_of.
  rewrite (is_object_get _ _ Ho), E. reflexivity.
Qed.

Lemma year_callback y b :
  well_formed b →
  (v ← get b "publishedYear"; n ← parseInt (VStr y);
   Normal (strict_equals_number v n)) = Normal (year_matches y b).
Proof. intros (Ho & _). rewrite (is_object_get _ _ Ho). reflexivity. Qed.

(** The search stage, which lowers the term before it filters. *)
Lemma search_stage_at bs h a q o :
  Forall well_formed bs →
  h !! a = Some (List.filter q bs) →
  ∃ a' h',
    (if truthy (param o) then
       searchTerm ← lift (call_toLowerCase (param o));
       filter a (λ book,
         or_lazy (s ← lowered book "title"; Normal (Latin1.includes s searchTerm))
        (or_lazy (s ← lowered book "author"; Normal (Latin1.includes s searchTerm))
        (or_lazy (s ← lowered book "description"; Normal (Latin1.includes s searchTerm))
                 (s ← lowered book "genre"; Normal (Latin1.includes s searchTerm)))))
     else mret a) h = (Normal a', h') ∧
    h' !! a' = Some (List.filter (λ b, q b && passes o search_matches b) bs).
Proof.
  intros Hwf Hat. destruct o as [term|].
  - cbn [param call_toLowerCase]. rewrite bind_lift_whole.
    apply (stage_at bs h a q (Some term) _ search_matches Hwf Hat).
    intros s b [= <-] Hb. now apply search_callback.
  - apply (stage_at bs h a q None (λ _, Normal true) search_matches Hwf Hat).
    discriminate.
Qed.

Lemma parseInt_default : parseInt (VNum 22%float) = Normal 22%float.
Proof. vm_compute. reflexivity. Qed.

Lemma limit_parsed (f : filters) :
  parseInt (match param (by_limit f) with
            | VUndefined => VNum 22%float
            | _ => param (by_limit f)
            end) = Normal (limit_number f).
Proof.
  unfold limit_number. destruct (by_limit f) as [s|]; [reflexivity|].
  apply parseInt_default.
Qed.

(** One stage of the handler: the callback is taken from the goal, the
    predicate it computes is given. *)
Ltac stage P obligation :=
  lazymatch goal with
  | Hwf : Forall well_formed ?bs, Hat : ?h !! ?a = Some (List.filter ?q ?bs)
    |- context [ (if truthy (param ?o) then filter ?a ?cb else mret ?a) ≫= _ ] =>
      let R := fresh "R" in
      let Hat' := fresh "Hat" in
      destruct (stage_at bs h a q o cb P Hwf Hat) as (? & ? & R & Hat');
      [ intros ? ? -> ?; now apply obligation
      | rewrite (bind_normal _ _ _ _ _ R); clear R Hat ]
  end.

(** The answer to a query on well-formed books: the books that satisfy
    the supplied predicates, cut by the slice. *)
Lemma get_books_answer query f h bs :
  collection h bs → Forall well_formed bs → carries query f →
  (get_books query h).1 =
    listing
      (take (slice_end (List.length (List.filter (satisfies f) bs)) (limit_number f))
            (List.filter (satisfies f) bs))
      (List.length (List.filter (satisfies f) bs)).
Proof.
  intros Hc Hwf (E1 & E2 & E3 & E4 & E5 & E6 & E7).
  unfold get_books, try_catch.
  rewrite E1, E2, E3, E4, E5, E6, E7, !bind_lift.
  rewrite (bind_normal _ _ _ _ _ (spread_at _ _ _ Hc)).
  assert (<[fresh (dom h) := bs]> h !! fresh (dom h)
          = Some (List.filter (λ _, true) bs)) as Hat.
  { rewrite lookup_insert_eq. f_equal. clear. induction bs as [|b bs IH]; [done|].
    cbn [List.filter]. now rewrite <- IH. }
  destruct (search_stage_at bs _ _ _ (by_search f) Hwf Hat) as (a1 & h1 & R & Hat1).
  rewrite (bind_normal _ _ _ _ _ R). clear R Hat.
  stage author_matches author_callback.
  stage genre_matches genre_callback.
  stage min_price_matches min_price_callback.
  stage max_price_matches max_price_callback.
  stage year_matches year_callback.
  lazymatch goal with
  | Hat : ?h6 !! ?a6 = Some _ |- _ =>
      change (h6 !! a6 = Some (List.filter (satisfies f) bs)) in Hat;
      rewrite limit_parsed, bind_lift;
      rewrite (bind_normal _ _ _ _ _ (slice_at _ _ _ _ Hat));
      rewrite (bind_normal _ _ _ _ _ (read_at _ _ _ (lookup_insert_eq _ _ _)));
      pose proof (fresh_ne _ _ _ Hat) as Hne;
      rewrite <- (lookup_insert_ne h6 _ _
                    (take (slice_end (List.length (List.filter (satisfies f) bs))
                                     (limit_number f))
                          (List.filter (satisfies f) bs)) Hne) in Hat;
      rewrite (bind_normal _ _ _ _ _ (length_at _ _ _ Hat));
      rewrite (bind_normal _ _ _ _ _ (length_at _ _ _ (lookup_insert_eq _ _ _)));
      reflexivity
  end.
Qed.


(** *** The slice *)


Lemma slice_end_NaN len x : Num.is_NaN x = true → slice_end len x = 0.
Proof.
  intros E. unfold slice_end, Num.to_integer_or_infinity, FloatOps.Prim2SF.
  unfold Num.is_NaN in E. rewrite E. cbv iota.
  change (0 <? 0)%Z with false. cbv iota. lia.
Qed.

Lemma sample_well_formed id title author genre description price year :
  well_formed (sample id title author genre description price year).
Proof.
  split; [eexists; reflexivity|]. split.
  - repeat (apply Forall_cons_2; [eexists; reflexivity|]). apply Forall_nil_2.
  - eexists. reflexivity.
Qed.

Lemma seed_well_formed : Forall well_formed seed.
Proof.
  repeat (apply Forall_cons_2; [apply sample_well_formed|]). apply Forall_nil_2.
Qed.

(** Why the books have to be well-formed: a search reads the description
    of every book whose title and author do not hold the term, and the
    call of [toLowerCase] on a description that is not there throws. *)
Remark search_without_description_fails :
  status (get_books (object [("search", VStr "zzz")]) bare_store).1 = 500%Z.
Proof. vm_compute. reflexivity. Qed.




(** C10: a limit that is a string [parseInt] makes nothing of, such as
    "abc", parses to NaN, the slice takes no element, and the list
    response has no books and [showing] 0 while [total] is the count of
    all the books that satisfy the supplied predicates. *)
Theorem non_numeric_limit_shows_nothing query f h bs s :
  collection h bs → Forall well_formed bs → carries query f →
  by_limit f = Some s → Num.is_NaN (Num.parseInt s) = true →
  (get_books query h).1 =
    listing [] (List.length (List.filter (satisfies f) bs)).
Proof.
  intros Hc Hwf Hq Hs Hnan.
  rewrite (get_books_answer query f h bs Hc Hwf Hq).
  unfold limit_number. rewrite Hs, (slice_end_NaN _ _ Hnan). reflexivity.
Qed.

Lemma non_numeric_limit_shows_nothing_witness :
  Num.is_NaN (Num.parseInt "abc") = true ∧
  (get_books (limit_query "abc") store).1 = listing [] 3.
Proof.
  split; [reflexivity|].
  apply (non_numeric_limit_shows_nothing (limit_query "abc") (limited "abc")
           store seed "abc").
  - reflexivity.
  - exact seed_well_formed.
  - repeat split.
  - reflexivity.
  - reflexivity.
Defined.
End Listing.

(* ===================================================================== *)
(** ** Further steps of the handlers *)
(* ===================================================================== *)

Module Steps.
Import JS Heap Routes Spec Examples Behaviour Run.
Import PrimFloat.

(** *** Comparisons with NaN *)

Lemma Prim2SF_NaN x : Num.is_NaN x = true → FloatOps.Prim2SF x = SpecFloat.S754_nan.
Proof.
  intros E. unfold FloatOps.Prim2SF. unfold Num.is_NaN in E. now rewrite E.
Qed.



Lemma eqb_NaN_r x y : Num.is_NaN y = true → (x =? y)%float = false.
Proof.
  intros E. rewrite FloatAxioms.eqb_spec, (Prim2SF_NaN y E).
  destruct (FloatOps.Prim2SF x) as [| | |[] ? ?]; try reflexivity;
    destruct s; reflexivity.
Qed.

Lemma strict_equals_NaN v y : Num.is_NaN y = true → strict_equals_number v y = false.
Proof. intros E. destruct v; try reflexivity. now apply eqb_NaN_r. Qed.

(** *** Lookups *)



Lemma get_book_absent id h bs :
  collection h bs → Forall is_object bs → absent id bs →
  not_found (get_book id h) h.
Proof.
  intros Hc Ho Ha. unfold not_found, get_book, try_catch.
  now rewrite (bind_normal _ _ _ _ _
                 (find_at _ _ _ _ _ Hc (findM_absent id bs 0 Ho Ha))).
Qed.

Lemma put_book_absent id req_body h bs :
  collection h bs → Forall is_object bs → absent id bs →
  not_found (put_book id req_body h) h.
Proof.
  intros Hc Ho Ha. unfold not_found, put_book, try_catch.
  now rewrite (bind_normal _ _ _ _ _
                 (findIndex_at _ _ _ _ _ Hc (findM_absent id bs 0 Ho Ha))).
Qed.

Lemma delete_book_absent id h bs :
  collection h bs → Forall is_object bs → absent id bs →
  not_found (delete_book id h) h.
Proof.
  intros Hc Ho Ha. unfold not_found, delete_book, try_catch.
  now rewrite (bind_normal _ _ _ _ _
                 (findIndex_at _ _ _ _ _ Hc (findM_absent id bs 0 Ho Ha))).
Qed.

(** *** Deletion *)

Lemma splice_run h a xs i :
  h !! a = Some xs →
  splice a i h =
    (Normal (fresh (dom (<[a := without i xs]> h))),
     <[fresh (dom (<[a := without i xs]> h)) := take 1 (drop i xs)]>
       (<[a := without i xs]> h)).
Proof.
  intros E. unfold splice.
  now rewrite (bind_normal _ _ _ _ _ (read_at _ _ _ E)).
Qed.

Lemma take_one_drop (xs : list value) i x :
  xs !! i = Some x → take 1 (drop i xs) = [x].
Proof.
  revert i. induction xs as [|y xs IH]; intros [|i] E; try discriminate.
  - injection E as ->. reflexivity.
  - now apply IH.
Qed.

(** A deletion of a book that is there: the store it leaves and the
    record it returns. *)
Lemma delete_book_located id h bs i old :
  collection h bs → Forall is_object bs → located id bs i old →
  delete_book id h =
    (deletion old,
     <[fresh (dom (<[books := without i bs]> h)) := [old]]>
       (<[books := without i bs]> h)).
Proof.
  intros Hc Ho Hl. unfold delete_book, try_catch.
  rewrite (bind_normal _ _ _ _ _
             (findIndex_at _ _ _ _ _ Hc (findM_located id bs 0 i old Ho Hl))).
  destruct Hl as (Hi & _ & _). cbn [Nat.add].
  rewrite (bind_normal _ _ _ _ _ (splice_run _ _ _ _ Hc)).
  rewrite (take_one_drop _ _ _ Hi).
  rewrite (bind_normal _ _ _ _ _ (index_at _ _ _ 0 (lookup_insert_eq _ _ _))).
  reflexivity.
Qed.

Lemma delete_book_collection id h bs i old :
  collection h bs → Forall is_object bs → located id bs i old →
  collection (delete_book id h).2 (without i bs).
Proof.
  intros Hc Ho Hl. rewrite (delete_book_located id h bs i old Hc Ho Hl).
  unfold collection. cbn [snd].
  rewrite lookup_insert_ne; [apply lookup_insert_eq|].
  apply (fresh_ne _ books (without i bs)). apply lookup_insert_eq.
Qed.

Lemma without_objects i bs : Forall is_object bs → Forall is_object (without i bs).
Proof.
  intros Ho. apply Forall_app. split; [now apply Forall_take|now apply Forall_drop].
Qed.


Lemma without_lookup (bs : list value) i j :
  without i bs !! j = if decide (j < i) then bs !! j else bs !! S j.
Proof.
  unfold without. destruct (decide (j < i)) as [Hlt|Hge].
  - destruct (decide (i ≤ List.length bs)).
    + rewrite lookup_app_l by (rewrite length_take; lia).
      now apply lookup_take_lt.
    + rewrite take_ge, drop_ge, app_nil_r by lia. reflexivity.
  - destruct (decide (i ≤ List.length bs)).
    + rewrite lookup_app_r by (rewrite length_take; lia).
      rewrite length_take, lookup_drop. f_equal. lia.
    + rewrite take_ge, drop_ge, app_nil_r by lia.
      rewrite !lookup_ge_None_2 by lia. reflexivity.
Qed.

(** *** Creation *)

(** A request that is accepted: the record it makes, field by field. *)
Lemma post_book_accepted now req_body h bs year amount count :
  collection h bs →
  Forall (λ k, truthy (field req_body k) = true) required →
  parseInt (field req_body "publishedYear") = Normal year →
  parseFloat (field req_body "price") = Normal amount →
  parseInt (field req_body "pages") = Normal count →
  ∃ newBook,
    post_book now req_body h = (creation newBook, <[books := bs ++ [newBook]]> h) ∧
    is_object newBook ∧
    field newBook "id" = VNum (Num.of_nat (List.length bs) + 1)%float ∧
    field newBook "title" = field req_body "title" ∧
    field newBook "author" = field req_body "author" ∧
    field newBook "isbn" = or_else (field req_body "isbn") (VStr "") ∧
    field newBook "publishedYear" = or_else (VNum year) (VNum (getFullYear now)) ∧
    field newBook "genre" = field req_body "genre" ∧
    field newBook "price" = VNum amount ∧
    field newBook "description" = or_else (field req_body "description") (VStr "") ∧
    field newBook "pages" = or_else (VNum count) (VNum 0%float) ∧
    field newBook "publisher" = or_else (field req_body "publisher") (VStr "") ∧
    field newBook "language" = or_else (field req_body "language") (VStr "English") ∧
    field newBook "rating" = VNum 0%float ∧
    field newBook "stock" = VNum 0%float ∧
    field newBook "image" = or_else (field req_body "image") (VStr placeholder_image) ∧
    field newBook "createdAt" = VStr (toISOString now).
Proof.
  intros Hc Ht H1 H2 H3.
  assert (nullish req_body = false) as Hb.
  { apply Forall_cons in Ht as [Ht _].
    apply truthy_field_object in Ht as [m ->]. reflexivity. }
  rewrite post_book_destructured by done.
  unfold required in Ht. rewrite !Forall_cons in Ht.
  destruct Ht as (-> & -> & -> & -> & _).
  unfold try_catch.
  change (negb true || negb true || negb true || negb true) with false.
  cbv iota.
  rewrite (bind_normal _ _ _ _ _ (length_at _ _ _ Hc)).
  rewrite H1, H2, H3, !bind_lift.
  rewrite (bind_normal _ _ _ _ _ (push_at _ _ _ _ Hc)).
  eexists. split; [reflexivity|]. split; [eexists; reflexivity|].
  repeat split;
    repeat (rewrite object_tail by discriminate); apply object_head.
Qed.

Lemma acceptable_parses req_body :
  acceptable req_body →
  Forall (λ k, truthy (field req_body k) = true) required ∧
  ∃ year amount count,
    parseInt (field req_body "publishedYear") = Normal year ∧
    parseFloat (field req_body "price") = Normal amount ∧
    parseInt (field req_body "pages") = Normal count.
Proof.
  intros (Ht & [s1 H1] & [s2 H2] & [s3 H3]). split; [exact Ht|].
  unfold parseInt, parseFloat. rewrite H1, H2, H3.
  eexists _, _, _. repeat split; reflexivity.
Qed.
End Steps.

(* ===================================================================== *)
(** ** What one request does *)
(* ===================================================================== *)

Module Outcomes.
Import JS Heap Routes Spec Examples Behaviour Run Steps.
Import PrimFloat.








(** X4: an accepted create request that leaves out the optional fields
    gets the defaults: an empty isbn, description and publisher, the
    language English, the placeholder image, 0 pages and the year of the
    clock as published year; title, author and genre are stored as sent
    and the price as the number [parseFloat] reads from it. *)
Theorem create_fills_defaults now req_body h bs text :
  collection h bs →
  Forall (λ k, truthy (field req_body k) = true) required →
  to_string (field req_body "price") = Normal text →
  Forall (λ k, field req_body k = VUndefined) optional →
  ∃ newBook,
    post_book now req_body h = (creation newBook, <[books := bs ++ [newBook]]> h) ∧
    field newBook "title" = field req_body "title" ∧
    field newBook "author" = field req_body "author" ∧
    field newBook "genre" = field req_body "genre" ∧
    field newBook "price" = VNum (Num.parseFloat text) ∧
    field newBook "isbn" = VStr "" ∧
    field newBook "description" = VStr "" ∧
    field newBook "publisher" = VStr "" ∧
    field newBook "language" = VStr "English" ∧
    field newBook "image" = VStr placeholder_image ∧
    field newBook "pages" = VNum 0%float ∧
    field newBook "publishedYear" = VNum (getFullYear now).
Proof.
  intros Hc Ht Hp Hopt. unfold optional in Hopt. rewrite !Forall_cons in Hopt.
  destruct Hopt as (Hisbn & Hyear & Hdesc & Hpages & Hpub & Hlang & Himg & _).
  destruct (post_book_accepted now req_body h bs
              (Num.parseInt "undefined") (Num.parseFloat text)
              (Num.parseInt "undefined") Hc Ht)
    as (newBook & Hrun & _ & _ & Ht' & Ha & Hi & Hy & Hg & Hpr & Hd & Hpg & Hpb
        & Hl & _ & _ & Him & _).
  - now rewrite Hyear.
  - unfold parseFloat. now rewrite Hp.
  - now rewrite Hpages.
  - exists newBook. rewrite Hisbn in Hi. rewrite Hdesc in Hd. rewrite Hpub in Hpb.
    rewrite Hlang in Hl. rewrite Himg in Him.
    repeat split; assumption.
Qed.

Lemma create_fills_defaults_witness :
  ∃ newBook,
    post_book now (priced (VStr "12.5")) store =
      (creation newBook, <[books := seed ++ [newBook]]> store) ∧
    field newBook "language" = VStr "English" ∧
    field newBook "price" = VNum (Num.parseFloat "12.5").
Proof.
  destruct (create_fills_defaults now (priced (VStr "12.5")) store seed "12.5")
    as (newBook & Hrun & _ & _ & _ & Hp & _ & _ & _ & Hl & _).
  - reflexivity.
  - repeat constructor.
  - reflexivity.
  - repeat constructor.
  - exists newBook. repeat split; assumption.
Defined.

(** X5: a create request cannot choose the identifier, the rating, the
    stock or the creation time: whatever the body carries under [id],
    [rating], [stock] and [createdAt], the record gets the size of the
    collection plus one, 0, 0 and the time of the clock. *)
Theorem create_ignores_supplied_id now req_body h bs :
  collection h bs → acceptable req_body →
  ∃ newBook,
    post_book now req_body h = (creation newBook, <[books := bs ++ [newBook]]> h) ∧
    field newBook "id" = VNum (Num.of_nat (List.length bs) + 1)%float ∧
    field newBook "rating" = VNum 0%float ∧
    field newBook "stock" = VNum 0%float ∧
    field newBook "createdAt" = VStr (toISOString now).
Proof.
  intros Hc Hacc.
  destruct (acceptable_parses req_body Hacc)
    as (Ht & year & amount & count & H1 & H2 & H3).
  destruct (post_book_accepted now req_body h bs year amount count Hc Ht H1 H2 H3)
    as (newBook & Hrun & _ & Hid & _ & _ & _ & _ & _ & _ & _ & _ & _ & _ & Hr & Hs
        & _ & Hcr).
  exists newBook. repeat split; assumption.
Qed.

Lemma create_ignores_supplied_id_witness :
  field western "id" = VNum (Num.of_Z 77) ∧
  ∃ newBook,
    post_book now western store = (creation newBook, <[books := seed ++ [newBook]]> store) ∧
    field newBook "id" = VNum (Num.of_nat 3 + 1)%float ∧
    field newBook "rating" = VNum 0%float ∧
    field newBook "stock" = VNum 0%float ∧
    field newBook "createdAt" = VStr (toISOString now).
Proof.
  split; [reflexivity|].
  apply (create_ignores_supplied_id now western store seed).
  - reflexivity.
  - split; [repeat constructor|].
    repeat split; eexists; vm_compute; reflexivity.
Defined.


End Outcomes.

(* ===================================================================== *)
(** ** What sequences of requests do *)
(* ===================================================================== *)

Module Sequences.
Import JS Heap Routes Spec Examples Behaviour Run Steps Metadata.
Import PrimFloat.

Lemma merged_id old req_body x : field (merged old req_body x) "id" = x.
Proof. unfold merged, field. now rewrite lookup_insert_eq. Qed.

Lemma identifies_merged id old req_body :
  identifies id (merged old req_body (field old "id")) = identifies id old.
Proof. unfold identifies. now rewrite merged_id. Qed.

(** The place of an updated book is still the first with its identifier. *)
Lemma located_updated id bs i old req_body :
  located id bs i old →
  located id (<[i := merged old req_body (field old "id")]> bs) i
    (merged old req_body (field old "id")).
Proof.
  intros (Hi & Hid & Hbefore). split; [|split].
  - apply list_lookup_insert_eq. eapply lookup_lt_Some; exact Hi.
  - now rewrite identifies_merged.
  - intros j b Hj Hb. rewrite list_lookup_insert_ne in Hb by lia.
    now apply (Hbefore j b).
Qed.

Lemma objects_updated bs i old req_body :
  Forall is_object bs →
  Forall is_object (<[i := merged old req_body (field old "id")]> bs).
Proof. intros Ho. apply Forall_insert; [exact Ho|]. eexists. reflexivity. Qed.

Lemma merged_twice old req_body x :
  merged (merged old req_body x) req_body x = merged old req_body x.
Proof.
  unfold merged. apply (f_equal VObj). cbn [own_properties].
  apply map_eq. intros k.
  destruct (decide (k = "id")) as [->|Hne].
  - now rewrite !lookup_insert_eq.
  - rewrite !lookup_insert_ne by congruence.
    destruct (own_properties req_body !! k) as [v|] eqn:E.
    + rewrite (lookup_union_Some_l _ _ _ _ E).
      now rewrite (lookup_union_Some_l _ _ _ _ E).
    + rewrite lookup_union_r by exact E.
      rewrite lookup_insert_ne by congruence.
      reflexivity.
Qed.

(** X7: an update is idempotent: sending the same update of a book a
    second time gives the same answer and leaves the same store as
    sending it once. *)
Theorem update_is_idempotent h bs id req_body i old :
  collection h bs → Forall is_object bs → located id bs i old →
  put_book id req_body (put_book id req_body h).2 = put_book id req_body h.
Proof.
  intros Hc Ho Hl.
  pose proof (put_book_located id req_body h bs i old Hc Ho Hl) as H1.
  unfold updated in H1. rewrite H1. cbn [snd].
  pose proof (put_book_located id req_body _ _ i _
                (lookup_insert_eq h books _)
                (objects_updated bs i old req_body Ho)
                (located_updated id bs i old req_body Hl)) as H2.
  unfold updated in H2. rewrite H2.
  rewrite merged_id, merged_twice, list_insert_insert_eq, insert_insert_eq.
  reflexivity.
Qed.

Lemma update_is_idempotent_witness :
  put_book "2" renumbering (put_book "2" renumbering store).2
  = put_book "2" renumbering store.
Proof.
  apply (update_is_idempotent store seed "2" renumbering 1
           (sample 2 "Dune" "Frank Herbert" "Sci-Fi" "The spice of Arrakis" 10 1965)).
  - reflexivity.
  - repeat constructor; eexists; reflexivity.
  - split; [reflexivity|]. split; [reflexivity|].
    intros j b Hj Hb. destruct j as [|j]; [|lia].
    injection Hb as <-. reflexivity.
Defined.







Lemma absent_without id bs i old : only id bs i old → absent id (without i bs).
Proof.
  intros ((Hi & _ & Hbefore) & Hafter). apply Forall_lookup_2. intros j b Hb.
  rewrite without_lookup in Hb. destruct (decide (j < i)).
  - now apply (Hbefore j b).
  - apply (Hafter (S j) b); [lia|exact Hb].
Qed.

(** X11: a deleted book is gone: when the deleted book was the only one
    with its identifier, the fetch, the update and a second deletion of
    that identifier on the store the deletion leaves all answer 404. *)
Theorem delete_then_not_found h bs id i old :
  collection h bs → Forall is_object bs → only id bs i old →
  not_found (get_book id (delete_book id h).2) (delete_book id h).2 ∧
  (∀ req_body,
     not_found (put_book id req_body (delete_book id h).2) (delete_book id h).2) ∧
  not_found (delete_book id (delete_book id h).2) (delete_book id h).2.
Proof.
  intros Hc Ho Honly. pose proof Honly as (Hl & _).
  pose proof (delete_book_collection id h bs i old Hc Ho Hl) as Hc'.
  pose proof (without_objects i bs Ho) as Ho'.
  pose proof (absent_without id bs i old Honly) as Ha.
  split; [|split].
  - now apply (get_book_absent id _ (without i bs)).
  - intros req_body. now apply (put_book_absent id req_body _ (without i bs)).
  - now apply (delete_book_absent id _ (without i bs)).
Qed.

Lemma delete_then_not_found_witness :
  not_found (delete_book "2" (delete_book "2" store).2) (delete_book "2" store).2.
Proof.
  destruct (delete_then_not_found store seed "2" 1
              (sample 2 "Dune" "Frank Herbert" "Sci-Fi" "The spice of Arrakis" 10 1965))
    as (_ & _ & H).
  - reflexivity.
  - repeat constructor; eexists; reflexivity.
  - split.
    + split; [reflexivity|]. split; [reflexivity|].
      intros j b Hj Hb. destruct j as [|j]; [|lia].
      injection Hb as <-. reflexivity.
    + intros j b Hj Hb. destruct j as [|[|[|j]]]; try lia.
      * injection Hb as <-. reflexivity.
      * discriminate.
  - exact H.
Defined.

(** X12: identifiers are not unique across a deletion: the identifier of
    a new record is the size of the collection plus one, so after a
    deletion a creation gives the identifier of any remaining book that
    already carries that number, and the collection then holds two books
    with the same identifier. *)
Theorem delete_then_create_reuses_id now req_body h bs id i old j kept :
  collection h bs → Forall is_object bs → located id bs i old →
  acceptable req_body →
  without i bs !! j = Some kept →
  field kept "id" = VNum (Num.of_nat (List.length (without i bs)) + 1)%float →
  ∃ newBook,
    post_book now req_body (delete_book id h).2
    = (creation newBook,
       <[books := without i bs ++ [newBook]]> (delete_book id h).2) ∧
    (without i bs ++ [newBook]) !! j = Some kept ∧
    (without i bs ++ [newBook]) !! List.length (without i bs) = Some newBook ∧
    j ≠ List.length (without i bs) ∧
    field kept "id" = field newBook "id".
Proof.
  intros Hc Ho Hl Hacc Hj Hkept.
  pose proof (delete_book_collection id h bs i old Hc Ho Hl) as Hc'.
  destruct (acceptable_parses req_body Hacc)
    as (Ht & year & amount & count & H1 & H2 & H3).
  destruct (post_book_accepted now req_body _ _ year amount count Hc' Ht H1 H2 H3)
    as (newBook & Hrun & _ & Hnew & _).
  pose proof (lookup_lt_Some _ _ _ Hj) as Hlt.
  exists newBook. split; [exact Hrun|]. split; [|split; [|split]].
  - now apply lookup_app_l_Some.
  - rewrite lookup_app_r by lia. now rewrite Nat.sub_diag.
  - lia.
  - now rewrite Hnew.
Qed.

Lemma delete_then_create_reuses_id_witness :
  ∃ newBook,
    (without 0 seed ++ [newBook]) !! 1
    = Some (sample 3 "Ulysses" "James Joyce" "Fiction" "One day in Dublin" 12 1922) ∧
    (without 0 seed ++ [newBook]) !! 2 = Some newBook ∧
    field (sample 3 "Ulysses" "James Joyce" "Fiction" "One day in Dublin" 12 1922) "id"
    = field newBook "id".
Proof.
  destruct (delete_then_create_reuses_id now western store seed "1" 0
              (sample 1 "Emma" "Jane Austen" "Fiction" "A match-maker in Highbury" 6 1815)
              1 (sample 3 "Ulysses" "James Joyce" "Fiction" "One day in Dublin" 12 1922))
    as (newBook & _ & Hk & Hn & _ & Hid).
  - reflexivity.
  - repeat constructor; eexists; reflexivity.
  - split; [reflexivity|]. split; [reflexivity|]. intros j b Hj. lia.
  - split; [repeat constructor|].
    repeat split; eexists; vm_compute; reflexivity.
  - reflexivity.
  - vm_compute. reflexivity.
  - exists newBook. repeat split; assumption.
Defined.

(** X13: an update changes neither the size of the collection nor the
    identifier any of its positions carries: for every identifier, the
    books that carry it are at the same positions before and after. *)
Theorem update_keeps_identifiers h bs id req_body i old :
  collection h bs → Forall is_object bs → located id bs i old →
  ∃ upd,
    updated id req_body h bs i upd ∧
    List.length (<[i := upd]> bs) = List.length bs ∧
    ∀ other, identifies other <$> <[i := upd]> bs = identifies other <$> bs.
Proof.
  intros Hc Ho Hl. eexists.
  split; [exact (put_book_located id req_body h bs i old Hc Ho Hl)|].
  split; [apply length_insert|]. intros other.
  rewrite list_fmap_insert, identifies_merged.
  apply list_insert_id. rewrite list_lookup_fmap.
  destruct Hl as (-> & _). reflexivity.
Qed.

Lemma update_keeps_identifiers_witness :
  ∃ upd,
    updated "2" renumbering store seed 1 upd ∧
    identifies "99" <$> <[1 := upd]> seed = [false; false; false].
Proof.
  destruct (update_keeps_identifiers store seed "2" renumbering 1
              (sample 2 "Dune" "Frank Herbert" "Sci-Fi" "The spice of Arrakis" 10 1965))
    as (upd & Hu & _ & Hids).
  - reflexivity.
  - repeat constructor; eexists; reflexivity.
  - split; [reflexivity|]. split; [reflexivity|].
    intros j b Hj Hb. destruct j as [|j]; [|lia].
    injection Hb as <-. reflexivity.
  - exists upd. split; [exact Hu|]. rewrite Hids. reflexivity.
Defined.

(** X14: the metadata follows the collection: after a creation with a
    genre that is a string, the genres endpoint on the store the
    creation leaves lists that genre, together with every genre that was
    there, still without duplicates and in ascending order. *)
Theorem create_then_genres now req_body h bs genres g :
  collection h bs → Forall is_object bs → acceptable req_body →
  texts "genre" bs genres → field req_body "genre" = VStr g →
  ∃ out,
    (get_meta_genres (post_book now req_body h).2).1
    = json 200 (VArr (VStr <$> out)) ∧
    g ∈ out ∧ (∀ s, s ∈ genres → s ∈ out) ∧ ascending out ∧ NoDup out.
Proof.
  intros Hc Ho Hacc Ht Hg.
  destruct (acceptable_parses req_body Hacc)
    as (Htr & year & amount & count & H1 & H2 & H3).
  destruct (post_book_accepted now req_body h bs year amount count Hc Htr H1 H2 H3)
    as (newBook & Hrun & Hobj & _ & _ & _ & _ & _ & Hgenre & _).
  rewrite Hrun. cbn [snd].
  destruct (get_meta_strings "genre" "Failed to fetch genres"
              (<[books := bs ++ [newBook]]> h) (bs ++ [newBook]) (genres ++ [g]))
    as (out & Hout & Hasc & Hnd & Hin).
  - apply lookup_insert_eq.
  - apply Forall_app. split; [exact Ho|]. now repeat constructor.
  - unfold texts in *. rewrite !fmap_app, Ht. cbn [fmap list_fmap].
    now rewrite Hgenre, Hg.
  - exists out. split; [exact Hout|]. split; [|split; [|split]].
    + apply Hin. set_solver.
    + intros s Hs. apply Hin. set_solver.
    + exact Hasc.
    + exact Hnd.
Qed.

Lemma create_then_genres_witness :
  ∃ out,
    (get_meta_genres (post_book now western store).2).1
    = json 200 (VArr (VStr <$> out)) ∧ "Western" ∈ out.
Proof.
  destruct (create_then_genres now western store seed
              ["Fiction"; "Sci-Fi"; "Fiction"] "Western")
    as (out & Hout & Hin & _).
  - reflexivity.
  - repeat constructor; eexists; reflexivity.
  - split; [repeat constructor|].
    repeat split; eexists; vm_compute; reflexivity.
  - reflexivity.
  - reflexivity.
  - exists out. split; [exact Hout|exact Hin].
Defined.
End Sequences.

(* ===================================================================== *)
(** ** Queries at the edges *)
(* ===================================================================== *)

Module Queries.
Import JS Heap Routes Spec Examples Behaviour Run Steps Metadata Listing.
Import PrimFloat.




(** X16: a search parameter that is truthy and no string - the array a
    repeated [search] key parses to - makes the list handler fail: the
    call of [toLowerCase] on it throws, the answer is the 500 of the
    catch block, and the collection is as it was. *)
Theorem search_that_is_no_string_fails query h bs v :
  collection h bs → is_object query →
  field query "search" = v → truthy v = true → (∀ s, v ≠ VStr s) →
  (get_books query h).1 = fault "Failed to fetch books" ∧
  collection (get_books query h).2 bs.
Proof.
  intros Hc Hq Hv Ht Hns.
  assert (get_books query h
          = (fault "Failed to fetch books", <[fresh (dom h) := bs]> h)) as ->.
  { unfold get_books, try_catch.
    rewrite !(is_object_get _ _ Hq), !bind_lift.
    rewrite (bind_normal _ _ _ _ _ (spread_at _ _ _ Hc)).
    rewrite Hv, Ht.
    assert (call_toLowerCase v = Throw TypeError) as ->.
    { destruct v; try reflexivity. now destruct (Hns s). }
    reflexivity. }
  split; [reflexivity|]. unfold collection. cbn [snd].
  rewrite lookup_insert_ne; [exact Hc|]. exact (fresh_ne _ _ _ Hc).
Qed.

Lemma search_that_is_no_string_fails_witness :
  (get_books two_terms store).1 = fault "Failed to fetch books" ∧
  collection (get_books two_terms store).2 seed.
Proof.
  apply (search_that_is_no_string_fails two_terms store seed
           (VArr [VStr "a"; VStr "b"])).
  - reflexivity.
  - eexists. reflexivity.
  - reflexivity.
  - reflexivity.
  - discriminate.
Defined.






Lemma absent_NaN id bs : Num.is_NaN (Num.parseInt id) = true → absent id bs.
Proof.
  intros Hnan. apply Forall_forall. intros b _.
  unfold identifies. now apply strict_equals_NaN.
Qed.

(** X18: a route parameter that is no number names no book: when the
    parameter does not parse under [parseInt], the fetch, the update and
    the deletion answer 404 on every collection of objects, and the
    store is as it was. *)
Theorem unparsable_identifier_not_found h bs id :
  collection h bs → Forall is_object bs →
  Num.is_NaN (Num.parseInt id) = true →
  not_found (get_book id h) h ∧
  (∀ req_body, not_found (put_book id req_body h) h) ∧
  not_found (delete_book id h) h.
Proof.
  intros Hc Ho Hnan. pose proof (absent_NaN id bs Hnan) as Ha.
  split; [|split].
  - now apply (get_book_absent id h bs).
  - intros req_body. now apply (put_book_absent id req_body h bs).
  - now apply (delete_book_absent id h bs).
Qed.

Lemma unparsable_identifier_not_found_witness :
  not_found (get_book "meta" store) store ∧
  (∀ req_body, not_found (put_book "meta" req_body store) store) ∧
  not_found (delete_book "meta" store) store.
Proof.
  apply (unparsable_identifier_not_found store seed "meta").
  - reflexivity.
  - repeat constructor; eexists; reflexivity.
  - reflexivity.
Defined.

Lemma same_supplied_satisfies f g b : same_supplied f g → satisfies f b = satisfies g b.
Proof.
  intros (E1 & E2 & E3 & E4 & E5 & E6 & _). unfold satisfies, passes.
  now rewrite E1, E2, E3, E4, E5, E6.
Qed.

(** X19: a parameter given as the empty string is as good as absent: two
    queries that supply the same non-empty parameters and the same limit
    get the same list response. *)
Theorem empty_parameters_are_ignored query f query' g h bs :
  collection h bs → Forall well_formed bs →
  carries query f → carries query' g → same_supplied f g →
  (get_books query h).1 = (get_books query' h).1.
Proof.
  intros Hc Hwf Hq Hq' Hsame.
  rewrite (get_books_answer query f h bs Hc Hwf Hq).
  rewrite (get_books_answer query' g h bs Hc Hwf Hq').
  rewrite (List.filter_ext (satisfies f) (satisfies g))
    by (intros b; now apply same_supplied_satisfies).
  destruct Hsame as (_ & _ & _ & _ & _ & _ & ->). reflexivity.
Qed.

Lemma empty_parameters_are_ignored_witness :
  (get_books blank_query store).1 = (get_books empty_query store).1.
Proof.
  apply (empty_parameters_are_ignored blank_query blank empty_query unfiltered
           store seed).
  - reflexivity.
  - exact seed_well_formed.
  - repeat split.
  - repeat split.
  - repeat split.
Defined.

(** X20: on an empty collection nothing is found and nothing fails: the
    list response is empty with [total] 0 for every combination of
    string parameters, the two metadata lists are empty, and the fetch,
    the update and the deletion of any identifier answer 404. *)
Theorem empty_collection_answers h :
  collection h [] →
  (∀ query f, carries query f → (get_books query h).1 = listing [] 0) ∧
  (get_meta_genres h).1 = json 200 (VArr []) ∧
  (get_meta_authors h).1 = json 200 (VArr []) ∧
  (∀ id, not_found (get_book id h) h) ∧
  (∀ id req_body, not_found (put_book id req_body h) h) ∧
  (∀ id, not_found (delete_book id h) h).
Proof.
  intros Hc. split; [|split; [|split; [|split; [|split]]]].
  - intros query f Hq.
    rewrite (get_books_answer query f h [] Hc (Forall_nil_2 _) Hq).
    cbn [List.filter]. now rewrite take_nil.
  - unfold get_meta_genres. now rewrite (get_meta_answer _ _ h [] Hc (Forall_nil_2 _)).
  - unfold get_meta_authors. now rewrite (get_meta_answer _ _ h [] Hc (Forall_nil_2 _)).
  - intros id. apply (get_book_absent id h []); [exact Hc|constructor..].
  - intros id req_body.
    apply (put_book_absent id req_body h []); [exact Hc|constructor..].
  - intros id. apply (delete_book_absent id h []); [exact Hc|constructor..].
Qed.

Lemma empty_collection_answers_witness :
  (get_books (limit_query "-1") {[ books := [] ]}).1 = listing [] 0 ∧
  (get_meta_genres {[ books := [] ]}).1 = json 200 (VArr []).
Proof.
  destruct (empty_collection_answers {[ books := [] ]}) as (Hl & Hg & _).
  - reflexivity.
  - split; [|exact Hg]. apply (Hl _ (limited "-1")). repeat split.
Defined.
End Queries.

(* ===================================================================== *)
(** ** What the lists show after a change *)
(* ===================================================================== *)

Module Followups.
Import JS Heap Routes Spec Examples Behaviour Run Steps Metadata Listing.
Import PrimFloat.






(** X22: the genres follow a deletion: after the deletion of a book the
    genres endpoint lists the genres of the books that remain - a genre
    that only the deleted book had is gone. *)
Theorem delete_then_genres h bs id i old genres :
  collection h bs → Forall is_object bs → located id bs i old →
  texts "genre" bs genres →
  lists_distinct_sorted (take i genres ++ drop (S i) genres)
    (get_meta_genres (delete_book id h).2).1.
Proof.
  intros Hc Ho Hl Ht.
  apply (get_meta_strings "genre" "Failed to fetch genres" _ (without i bs)).
  - now apply (delete_book_collection id h bs i old).
  - now apply without_objects.
  - unfold texts, without in *.
    now rewrite !fmap_app, !fmap_take, !fmap_drop, Ht.
Qed.

Lemma delete_then_genres_witness :
  lists_distinct_sorted ["Fiction"; "Fiction"]
    (get_meta_genres (delete_book "2" store).2).1.
Proof.
  apply (delete_then_genres store seed "2" 1
           (sample 2 "Dune" "Frank Herbert" "Sci-Fi" "The spice of Arrakis" 10 1965)
           ["Fiction"; "Sci-Fi"; "Fiction"]).
  - reflexivity.
  - repeat constructor; eexists; reflexivity.
  - split; [reflexivity|]. split; [reflexivity|].
    intros j b Hj Hb. destruct j as [|j]; [|lia].
    injection Hb as <-. reflexivity.
  - reflexivity.
Defined.

(** X23: the genres follow an update: after an update whose body gives a
    book a new genre, a string, the genres endpoint lists the genres of
    the collection with that book's genre replaced. *)
Theorem update_then_genres h bs id req_body i old genres g :
  collection h bs → Forall is_object bs → located id bs i old →
  texts "genre" bs genres →
  own_properties req_body !! "genre" = Some (VStr g) →
  lists_distinct_sorted (<[i := g]> genres)
    (get_meta_genres (put_book id req_body h).2).1.
Proof.
  intros Hc Ho Hl Ht Hg.
  pose proof (put_book_located id req_body h bs i old Hc Ho Hl) as Hrun.
  unfold updated in Hrun. rewrite Hrun. cbn [snd].
  pose proof Hl as (Hi & _).
  destruct (merged_merges old req_body (Forall_lookup_1 _ _ _ _ Ho Hi))
    as (Hobj & Hover & _).
  eapply (get_meta_strings "genre" "Failed to fetch genres").
  - apply lookup_insert_eq.
  - now apply Forall_insert.
  - unfold texts in *. rewrite list_fmap_insert, Ht.
    rewrite (Hover "genre" (VStr g)) by (discriminate || exact Hg).
    now rewrite <- list_fmap_insert.
Qed.

Lemma update_then_genres_witness :
  lists_distinct_sorted ["Fiction"; "Essay"; "Fiction"]
    (get_meta_genres (put_book "2" (object [("genre", VStr "Essay")]) store).2).1.
Proof.
  apply (update_then_genres store seed "2" (object [("genre", VStr "Essay")]) 1
           (sample 2 "Dune" "Frank Herbert" "Sci-Fi" "The spice of Arrakis" 10 1965)
           ["Fiction"; "Sci-Fi"; "Fiction"] "Essay").
  - reflexivity.
  - repeat constructor; eexists; reflexivity.
  - split; [reflexivity|]. split; [reflexivity|].
    intros j b Hj Hb. destruct j as [|j]; [|lia].
    injection Hb as <-. reflexivity.
  - reflexivity.
  - reflexivity.
Defined.





End Followups.
